(** * apidoc: the schema reflector and the document assembler

    A shallow embedding of [reflection.go], [registry.go] and [types.go].

    - Go strings are byte strings ([string] of [ascii]).
    - [map[string]interface{}] is a [gmap string JValue]: a Go map has no
      insertion order, and neither has a [gmap].
    - [reflect.Type] is a reference into the run-time table of type
      descriptors ([TypeId] into [rtypes]); a descriptor may refer back to
      itself, as the type graph of a Go program may.
    - A call either returns, panics, or has not returned within the given
      recursion budget ([Res]).
    - The registry lock does not show in a sequential reading: the
      generators are functions of the registry state they read under it. *)

From Stdlib Require Import ZArith String Ascii List Lia Permutation.
From Stdlib Require Import Floats.PrimFloat Numbers.Cyclic.Int63.Uint63.
From stdpp Require Import gmap strings list fin_maps.

Set Warnings "-register-all,-clear-no-such-hyp".
Local Open Scope string_scope.
Local Open Scope Z_scope.

(** ** Go's [strings] package, on byte strings *)

Module strings.

(** The ASCII white space of [unicode.IsSpace]; the Unicode spaces beyond
    ASCII are multi-byte and are not recognised on byte strings. *)
Definition isSpace (c : ascii) : bool :=
  let n := nat_of_ascii c in
  ((9 <=? n)%nat && (n <=? 13)%nat) || (n =? 32)%nat.

Fixpoint TrimLeft (s : string) : string :=
  match s with
  | String c r => if isSpace c then TrimLeft r else s
  | EmptyString => EmptyString
  end.

Fixpoint TrimRight (s : string) : string :=
  match s with
  | EmptyString => EmptyString
  | String c r =>
      match TrimRight r with
      | EmptyString => if isSpace c then EmptyString else String c EmptyString
      | r' => String c r'
      end
  end.

Definition TrimSpace (s : string) : string := TrimRight (TrimLeft s).

(** [strings.Split(s, sep)] for a one-byte separator: always at least one
    piece, [Split "" sep = [""]]. *)
Fixpoint Split (s : string) (sep : ascii) : list string :=
  match s with
  | EmptyString => [EmptyString]
  | String c r =>
      if Ascii.eqb c sep then EmptyString :: Split r sep
      else match Split r sep with
           | w :: ws => String c w :: ws
           | [] => [String c EmptyString]
           end
  end.

(** [strings.Cut]: the text before and after the first separator. *)
Fixpoint Cut (s : string) (sep : ascii) : option (string * string) :=
  match s with
  | EmptyString => None
  | String c r =>
      if Ascii.eqb c sep then Some (EmptyString, r)
      else match Cut r sep with
           | Some (a, b) => Some (String c a, b)
           | None => None
           end
  end.

(** [strings.SplitN(s, sep, 2)]: split on the first separator only. *)
Definition SplitN2 (s : string) (sep : ascii) : list string :=
  match Cut s sep with
  | Some (a, b) => [a; b]
  | None => [s]
  end.

End strings.

(** ** Go's [fmt] scanner, as far as ["%d"] and ["%f"] use it *)

Module fmt.

Definition memb (c : ascii) (chars : string) : bool :=
  existsb (Ascii.eqb c) (list_ascii_of_string chars).

(** The scanner state: the token buffer and the unread input. *)
Definition ss : Type := string * string.

(** [s.accept(ok)]: consume one byte when it is one of [ok]. *)
Definition accept (ok : string) (s : ss) : bool * ss :=
  match snd s with
  | String c r =>
      if memb c ok then (true, (fst s ++ String c EmptyString, r)) else (false, s)
  | EmptyString => (false, s)
  end.

(** [for s.accept(ok) {}] *)
Fixpoint accept_run (ok : string) (buf input : string) : ss :=
  match input with
  | String c r => if memb c ok then accept_run ok (buf ++ String c EmptyString) r
                  else (buf, input)
  | EmptyString => (buf, input)
  end.

(** [s.SkipSpace()] of [Sscanf] (a newline is not a space there): [None]
    is the scanner's "unexpected newline" error. *)
Fixpoint SkipSpace (input : string) : option string :=
  match input with
  | String c r =>
      if Ascii.eqb c "010"%char then None
      else if strings.isSpace c then SkipSpace r
      else Some input
  | EmptyString => Some input
  end.

Definition sign : string := "+-".
Definition decimalDigits : string := "0123456789".
Definition hexadecimalDigits : string := "0123456789aAbBcCdDeEfF".
Definition period : string := ".".
Definition exponent : string := "eEpP".

Definition isDigit (c : ascii) : bool := memb c decimalDigits.

Fixpoint digits_value (acc : Z) (s : string) : option Z :=
  match s with
  | EmptyString => Some acc
  | String c r =>
      if isDigit c then digits_value (10 * acc + (Z.of_nat (nat_of_ascii c) - 48)) r
      else None
  end.

(** [strconv.ParseInt(tok, 10, 64)]: an optional sign and one or more
    decimal digits (an underscore is a syntax error in base 10), within the
    range of a 64-bit integer. *)
Definition ParseInt (tok : string) : option Z :=
  let '(neg, body) :=
    match tok with
    | String "+"%char r => (false, r)
    | String "-"%char r => (true, r)
    | _ => (false, tok)
    end in
  match body with
  | EmptyString => None
  | _ =>
      match digits_value 0 body with
      | Some v =>
          let i := if neg then - v else v in
          if (- 2 ^ 63 <=? i) && (i <=? 2 ^ 63 - 1) then Some i else None
      | None => None
      end
  end.

(** [Sscanf(s, "%d", &i)] through [scanInt]: skip spaces, an optional
    sign, a run of digits and underscores, then [ParseInt] on that token.
    Input left after the token is not an error for [Sscanf]. *)
Definition Sscanf_d (s : string) : option Z :=
  match SkipSpace s with
  | None => None
  | Some EmptyString => None
  | Some input =>
      let '(_, (buf, input)) := accept sign (EmptyString, input) in
      match input with
      | EmptyString => None
      | _ =>
          let '(buf', _) := accept_run (decimalDigits ++ "_") buf input in
          if String.eqb buf' buf then None else ParseInt buf'
      end
  end.

(** [s.floatToken()]: the longest prefix that looks like a floating-point
    number; bytes accepted by a check that then fails stay in the token. *)
Definition floatToken (input : string) : ss :=
  let s0 : ss := (EmptyString, input) in
  let '(n1, s1) := accept "nN" s0 in
  let '(n2, s2) := if n1 then accept "aA" s1 else (false, s1) in
  let '(n3, s3) := if n2 then accept "nN" s2 else (false, s2) in
  if n3 then s3 else
  let '(_, s4) := accept sign s3 in
  let '(i1, s5) := accept "iI" s4 in
  let '(i2, s6) := if i1 then accept "nN" s5 else (false, s5) in
  let '(i3, s7) := if i2 then accept "fF" s6 else (false, s6) in
  if i3 then s7 else
  let '(z, s8) := accept "0" s7 in
  let '(x, s9) := if z then accept "xX" s8 else (false, s8) in
  let digits := if x then hexadecimalDigits ++ "_" else decimalDigits ++ "_" in
  let exp := if x then "pP" else exponent in
  let s10 := accept_run digits (fst s9) (snd s9) in
  let '(dot, s11) := accept period s10 in
  let s12 := if dot then accept_run digits (fst s11) (snd s11) else s11 in
  let '(e, s13) := accept exp s12 in
  if e then
    let '(_, s14) := accept sign s13 in
    accept_run (decimalDigits ++ "_") (fst s14) (snd s14)
  else s13.

(** [Sscanf(s, "%f", &f)]: skip spaces, take the float token and convert
    it. The conversion ([fmt]'s [convertFloat], [strconv.ParseFloat] at its
    core) is outside this repository and is a parameter. *)
Definition Sscanf_f (convertFloat : string -> option float) (s : string)
  : option float :=
  match SkipSpace s with
  | None => None
  | Some EmptyString => None
  | Some input => convertFloat (fst (floatToken input))
  end.

End fmt.


(** ** Go's [net/http]: the status phrases *)

Module http.

Definition statusText : list (Z * string) :=
  [ (100, "Continue"); (101, "Switching Protocols"); (102, "Processing");
    (103, "Early Hints");
    (200, "OK"); (201, "Created"); (202, "Accepted");
    (203, "Non-Authoritative Information"); (204, "No Content");
    (205, "Reset Content"); (206, "Partial Content"); (207, "Multi-Status");
    (208, "Already Reported"); (226, "IM Used");
    (300, "Multiple Choices"); (301, "Moved Permanently"); (302, "Found");
    (303, "See Other"); (304, "Not Modified"); (305, "Use Proxy");
    (307, "Temporary Redirect"); (308, "Permanent Redirect");
    (400, "Bad Request"); (401, "Unauthorized"); (402, "Payment Required");
    (403, "Forbidden"); (404, "Not Found"); (405, "Method Not Allowed");
    (406, "Not Acceptable"); (407, "Proxy Authentication Required");
    (408, "Request Timeout"); (409, "Conflict"); (410, "Gone");
    (411, "Length Required"); (412, "Precondition Failed");
    (413, "Request Entity Too Large"); (414, "Request URI Too Long");
    (415, "Unsupported Media Type");
    (416, "Requested Range Not Satisfiable"); (417, "Expectation Failed");
    (418, "I'm a teapot"); (421, "Misdirected Request");
    (422, "Unprocessable Entity"); (423, "Locked");
    (424, "Failed Dependency"); (425, "Too Early"); (426, "Upgrade Required");
    (428, "Precondition Required"); (429, "Too Many Requests");
    (431, "Request Header Fields Too Large");
    (451, "Unavailable For Legal Reasons");
    (500, "Internal Server Error"); (501, "Not Implemented");
    (502, "Bad Gateway"); (503, "Service Unavailable");
    (504, "Gateway Timeout"); (505, "HTTP Version Not Supported");
    (506, "Variant Also Negotiates"); (507, "Insufficient Storage");
    (508, "Loop Detected"); (510, "Not Extended");
    (511, "Network Authentication Required") ].

Fixpoint assoc (tbl : list (Z * string)) (code : Z) : string :=
  match tbl with
  | [] => EmptyString
  | (c, s) :: tbl' => if Z.eqb c code then s else assoc tbl' code
  end.

(** [http.StatusText(code)]: the phrase, or the empty string for a code
    the table does not know. *)
Definition StatusText (code : Z) : string := assoc statusText code.

End http.

(** ** Values of [interface{}] that a schema holds *)

(** A schema is a [map[string]interface{}]; the values stored in one are
    strings, [int]s, [float64]s, [bool]s, [[]string]s and nested maps. *)
Inductive JValue : Type :=
| VString (s : string)
| VInt (n : Z)
| VFloat (f : float)
| VBool (b : bool)
| VStrings (l : list string)
| VMap (m : gmap string JValue).

Abbreviation Schema := (gmap string JValue).

(** ** Outcomes of a call *)

Inductive Res (A : Type) : Type :=
| Ret (a : A)       (* the call returns *)
| Panic             (* a run-time panic (a failed type assertion) *)
| OutOfFuel.        (* no result within the recursion budget *)
Arguments Ret {A} a.
Arguments Panic {A}.
Arguments OutOfFuel {A}.

#[global] Instance Res_bind : MBind Res := fun A B f m =>
  match m with
  | Ret a => f a
  | Panic => Panic
  | OutOfFuel => OutOfFuel
  end.

(** A loop body run over a slice, stopping at the first call that does
    not return. *)
Fixpoint foldM {A B : Type} (f : A -> B -> Res A) (l : list B) (a : A) : Res A :=
  match l with
  | [] => Ret a
  | x :: l' => a' ← f a x; foldM f l' a'
  end.

(** ** Go's [reflect], as far as the reflector reads it *)

Module reflect.

Inductive Kind : Set :=
| Invalid | Bool
| Int | Int8 | Int16 | Int32 | Int64
| Uint | Uint8 | Uint16 | Uint32 | Uint64 | Uintptr
| Float32 | Float64 | Complex64 | Complex128
| Array | Chan | Func | Interface | Map | Ptr | Slice | String | Struct
| UnsafePointer.

(** A [reflect.Type] value: a reference to a type descriptor. *)
Definition TypeId : Set := nat.

(** [reflect.StructField]. [IsExported] is the method of that name;
    [Tag] lists the key:"value" pairs of the struct tag in the order
    written. *)
Record StructField : Set := {
  Name : string;
  IsExported : bool;
  Type_ : TypeId;       (* [field.Type] *)
  Tag : list (string * string)
}.

(** [field.Tag.Get(key)]: the value of the first pair with that key, the
    empty string when there is none. *)
Fixpoint Get (tag : list (string * string)) (key : string) : string :=
  match tag with
  | [] => EmptyString
  | (k, v) :: tag' => if String.eqb k key then v else Get tag' key
  end.

(** A type descriptor: what [t.Kind()], [t.Elem()] and [t.Field(i)],
    [i < t.NumField()], answer. [Elem] is read only for arrays, maps,
    pointers and slices, and [Fields] only for structs. *)
Record rtype : Set := {
  kind : Kind;
  Elem : TypeId;
  Fields : list StructField
}.

End reflect.

(** A value of type [interface{}] as the assembler meets it: [nil], a
    string (whose dynamic type is the predeclared [string]), or a value of
    any other dynamic type, of which only the type is read. *)
Inductive any : Set :=
| nil
| str (s : string)
| val (t : reflect.TypeId).
Arguments val t%_nat.

(** ** The data model of [types.go]

    One module per Go struct, so that fields keep their Go names. A map
    field that Go leaves [nil] is the empty map; a pointer field is an
    [option]. [EndpointConfig.Handler] is never read by the generators and
    is left out. *)

Module EndpointConfig.
(** [Responses] lists the entries of the Go map in the order one [range]
    over it visits them, which Go leaves unspecified; the status codes of
    the entries are pairwise distinct. *)
Record t : Type := {
  Method : string;
  Path : string;
  Summary : string;
  Description : string;
  Tags : list string;
  RequestBody : any;
  Responses : list (Z * any);
  Security : list string
}.
End EndpointConfig.

Module OpenAPIInfo.
Record t : Type := { Title : string; Description : string; Version : string }.
End OpenAPIInfo.

Module OpenAPIServer.
Record t : Type := { URL : string; Description : string }.
End OpenAPIServer.

Module MediaType.
Record t : Type := { Schema : gmap string JValue; Example_ : option JValue }.
End MediaType.

Module RequestBody.
Record t : Type := {
  Description : string;
  Required : bool;
  Content : gmap string MediaType.t
}.
End RequestBody.

Module Response.
Record t : Type := { Description : string; Content : gmap string MediaType.t }.
End Response.

Module Operation.
Record t : Type := {
  Summary : string;
  Description : string;
  Tags : list string;
  OperationID : string;
  RequestBody : option RequestBody.t;
  Responses : gmap string Response.t;
  Security : list (gmap string (list string))
}.
End Operation.

Module PathItem.
Record t : Type := {
  Get : option Operation.t;
  Post : option Operation.t;
  Put : option Operation.t;
  Delete : option Operation.t;
  Patch : option Operation.t
}.
(** [PathItem{}] *)
Definition zero : t :=
  {| Get := None; Post := None; Put := None; Delete := None; Patch := None |}.
End PathItem.

Module SecurityScheme.
Record t : Type := { Type_ : string; Scheme : string; Description : string }.
End SecurityScheme.

Module OpenAPIComponents.
Record t : Type := {
  Schemas : gmap string (gmap string JValue);
  SecuritySchemes : gmap string SecurityScheme.t
}.
End OpenAPIComponents.

Module OpenAPISpec.
Record t : Type := {
  OpenAPI : string;
  Info : OpenAPIInfo.t;
  Servers : list OpenAPIServer.t;
  Paths : gmap string PathItem.t;
  Components : OpenAPIComponents.t
}.
End OpenAPISpec.

Module RequestBodySchema.
Record t : Type := {
  ContentType : string;
  Schema : gmap string JValue;
  Required : bool;
  Example_ : option JValue
}.
End RequestBodySchema.

Module ResponseSchema.
Record t : Type := {
  Description : string;
  ContentType : string;
  Schema : gmap string JValue;
  Example_ : option JValue
}.
End ResponseSchema.

Module APIEndpoint.
Record t : Type := {
  Method : string;
  Path : string;
  Summary : string;
  Description : string;
  RequestBody : option RequestBodySchema.t;
  Responses : gmap string ResponseSchema.t;
  Tags : list string
}.
End APIEndpoint.

Module APIDescription.
Record t : Type := {
  ServiceName : string;
  Version : string;
  BaseURL : string;
  Endpoints : list APIEndpoint.t
}.
End APIDescription.

(** [registry.go]: the state behind the package-level [registry]. *)
Module EndpointRegistry.
Record t : Type := {
  endpoints : list EndpointConfig.t;
  info : OpenAPIInfo.t;
  baseURL : string
}.
End EndpointRegistry.

(** ** [reflection.go] *)

(** [map[string]interface{}{"type": ty}] *)
Definition type_only (ty : string) : Schema := {[ "type" := VString ty ]}.

(** [parseValue]: the value of a [default=] or [example=] token for a
    field whose schema has the given ["type"]. [var i int] and
    [var f float64] are the zero values. *)
Definition parseValue (s typ : string) : JValue :=
  if String.eqb typ "integer" then VInt 0
  else if String.eqb typ "number" then VFloat PrimFloat.zero
  else if String.eqb typ "boolean" then VBool (String.eqb s "true")
  else VString s.

Definition parseIntHelper (s : string) : option Z := fmt.Sscanf_d s.

(** [schema["type"].(string)]: the assertion panics on a missing key and
    on a value that is not a string. *)
Definition assert_string (v : option JValue) : Res string :=
  match v with
  | Some (VString s) => Ret s
  | _ => Panic
  end.

(** ** Example programs

    A float conversion and a table of type descriptors to run the
    definitions on. *)

(** The float conversion on plain decimal tokens (a sign, digits, a
    fraction) of at most 15 digits: there the quotient of two exactly
    represented integers is the correctly rounded value. Every other token
    is declined. *)
Definition convertFloat_short (tok : string) : option float :=
  let '(neg, body) :=
    match tok with
    | String "+"%char r => (false, r)
    | String "-"%char r => (true, r)
    | _ => (false, tok)
    end in
  let '(ip, rest) := fmt.accept_run fmt.decimalDigits EmptyString body in
  let '(fp, rest) :=
    match rest with
    | String "."%char r => fmt.accept_run fmt.decimalDigits EmptyString r
    | _ => (EmptyString, rest)
    end in
  match rest, fmt.digits_value 0 (ip ++ fp) with
  | EmptyString, Some m =>
      let digits := (String.length ip + String.length fp)%nat in
      if ((0 <? digits) && (digits <=? 15))%nat then
        let f := PrimFloat.div (PrimFloat.of_uint63 (Uint63.of_Z m))
                   (PrimFloat.of_uint63 (Uint63.of_Z (10 ^ Z.of_nat (String.length fp)))) in
        Some (if neg then PrimFloat.opp f else f)
      else None
  | _, _ => None
  end.

Definition basic (k : reflect.Kind) : reflect.rtype :=
  {| reflect.kind := k; reflect.Elem := O; reflect.Fields := [] |}.

Definition with_elem (k : reflect.Kind) (elem : reflect.TypeId) : reflect.rtype :=
  {| reflect.kind := k; reflect.Elem := elem; reflect.Fields := [] |}.
Arguments with_elem k elem%_nat.

Definition struct_of (fields : list reflect.StructField) : reflect.rtype :=
  {| reflect.kind := reflect.Struct; reflect.Elem := O; reflect.Fields := fields |}.

Definition exported (name : string) (t : reflect.TypeId)
    (tag : list (string * string)) : reflect.StructField :=
  {| reflect.Name := name; reflect.IsExported := true;
     reflect.Type_ := t; reflect.Tag := tag |}.
Arguments exported name t%_nat tag.

(** The types of the examples, by their place in the table:
<<
   0 string      1 int      2 *string      10 float64      11 bool
   3 type Node struct { Children []Node `json:"children"` }
   4 []Node
   5 type Settings struct { Count int `json:"count" openapi:"default=50"` }
   6 type Profile struct { Name *string `json:"name"` }
   7 type Clash struct { A string `json:"x"`; B string `json:"x"` }
   8 type BA struct { B string `json:"b"`; A string `json:"a"` }
   9 type AB struct { A string `json:"a"`; B string `json:"b"` }
  12 type User struct {
       ID    int    `json:"id" openapi:"required,min=1,bogus=xyz"`
       Name  string `json:"name,omitempty" openapi:"required" doc:"Display name"`
       Score float64 `json:"score"`
       secret string
     }
  13 type Twice struct { A string `json:"a" openapi:"required,required"` }
>> *)
Definition example_types (t : reflect.TypeId) : reflect.rtype :=
  match t with
  | 0%nat => basic reflect.String
  | 1%nat => basic reflect.Int
  | 2%nat => with_elem reflect.Ptr 0
  | 3%nat => struct_of [ exported "Children" 4 [("json", "children")] ]
  | 4%nat => with_elem reflect.Slice 3
  | 5%nat => struct_of
      [ exported "Count" 1 [("json", "count"); ("openapi", "default=50")] ]
  | 6%nat => struct_of [ exported "Name" 2 [("json", "name")] ]
  | 7%nat => struct_of [ exported "A" 0 [("json", "x")];
                         exported "B" 0 [("json", "x")] ]
  | 8%nat => struct_of [ exported "B" 0 [("json", "b")];
                         exported "A" 0 [("json", "a")] ]
  | 9%nat => struct_of [ exported "A" 0 [("json", "a")];
                         exported "B" 0 [("json", "b")] ]
  | 10%nat => basic reflect.Float64
  | 11%nat => basic reflect.Bool
  | 12%nat => struct_of
      [ exported "ID" 1 [("json", "id"); ("openapi", "required,min=1,bogus=xyz")];
        exported "Name" 0 [("json", "name,omitempty"); ("openapi", "required");
                           ("doc", "Display name")];
        exported "Score" 10 [("json", "score")];
        {| reflect.Name := "secret"; reflect.IsExported := false;
           reflect.Type_ := 0%nat; reflect.Tag := [] |} ]
  | 13%nat => struct_of
      [ exported "A" 0 [("json", "a"); ("openapi", "required,required")] ]
  | _ => basic reflect.Invalid
  end.

Definition endpoint (method path : string) (body : any)
    (responses : list (Z * any)) : EndpointConfig.t :=
  {| EndpointConfig.Method := method; EndpointConfig.Path := path;
     EndpointConfig.Summary := ""; EndpointConfig.Description := "";
     EndpointConfig.Tags := []; EndpointConfig.RequestBody := body;
     EndpointConfig.Responses := responses; EndpointConfig.Security := [] |}.

Definition registry_of (endpoints : list EndpointConfig.t) : EndpointRegistry.t :=
  {| EndpointRegistry.endpoints := endpoints;
     EndpointRegistry.info :=
       {| OpenAPIInfo.Title := "my-service"; OpenAPIInfo.Description := "";
          OpenAPIInfo.Version := "1.0.0" |};
     EndpointRegistry.baseURL := "https://localhost:8080" |}.

(** More types for the examples:
<<
   0 string   1 *string   2 **string   3 int   4 []string   5 map[string]int
   8 []*string   9 map[string]*string
   6 type Inner struct { Code int `json:"code" openapi:"min=1,minimum=5"` }
   7 type Outer struct {
       Inner Inner    `json:"inner,omitempty"`
       Note  string   `json:"note" openapi:"description=from the tag" doc:"from doc"`
       Tags  []string `json:"tags"`
       Meta  map[string]int `json:"meta"`
       Free  string   `json:",omitempty"`
     }
>> *)
Definition nested_types (t : reflect.TypeId) : reflect.rtype :=
  match t with
  | 0%nat => basic reflect.String
  | 1%nat => with_elem reflect.Ptr 0
  | 2%nat => with_elem reflect.Ptr 1
  | 3%nat => basic reflect.Int
  | 4%nat => with_elem reflect.Slice 0
  | 5%nat => with_elem reflect.Map 3
  | 6%nat => struct_of
      [ exported "Code" 3 [("json", "code"); ("openapi", "min=1,minimum=5")] ]
  | 7%nat => struct_of
      [ exported "Inner" 6 [("json", "inner,omitempty")];
        exported "Note" 0 [("json", "note");
                           ("openapi", "description=from the tag");
                           ("doc", "from doc")];
        exported "Tags" 4 [("json", "tags")];
        exported "Meta" 5 [("json", "meta")];
        exported "Free" 0 [("json", ",omitempty")] ]
  | 8%nat => with_elem reflect.Slice 1
  | 9%nat => with_elem reflect.Map 1
  | _ => basic reflect.Invalid
  end.

Section Reflector.

(** The table of type descriptors of the running program, and the float
    conversion of Go's library. *)
Variable rtypes : reflect.TypeId -> reflect.rtype.
Variable convertFloat : string -> option float.

Definition parseFloatHelper (s : string) : option float :=
  fmt.Sscanf_f convertFloat s.

(** [parseNumber]: integer first, then float, else the string itself. *)
Definition parseNumber (s : string) : JValue :=
  match parseIntHelper s with
  | Some n => VInt n
  | None =>
      match parseFloatHelper s with
      | Some f => VFloat f
      | None => VString s
      end
  end.

(** One turn of the loop of [parseOpenAPITag], on the schema and the
    required list that the caller shares with it. *)
Definition parseOpenAPITag_part (fieldName : string)
    (st : Schema * list string) (part : string) : Res (Schema * list string) :=
  let '(schema, required) := st in
  let part := strings.TrimSpace part in
  if String.eqb part "required" then Ret (schema, (required ++ [fieldName])%list)
  else
    match strings.SplitN2 part "="%char with
    | [k; v] =>
        let key := strings.TrimSpace k in
        let value := strings.TrimSpace v in
        if String.eqb key "enum" then
          Ret (<["enum" := VStrings (strings.Split value "|"%char)]> schema, required)
        else if String.eqb key "min" || String.eqb key "minimum" then
          Ret (<["minimum" := parseNumber value]> schema, required)
        else if String.eqb key "max" || String.eqb key "maximum" then
          Ret (<["maximum" := parseNumber value]> schema, required)
        else if String.eqb key "minLength" then
          Ret (<["minLength" := parseNumber value]> schema, required)
        else if String.eqb key "maxLength" then
          Ret (<["maxLength" := parseNumber value]> schema, required)
        else if String.eqb key "pattern" then
          Ret (<["pattern" := VString value]> schema, required)
        else if String.eqb key "default" then
          typ ← assert_string (schema !! "type");
          Ret (<["default" := parseValue value typ]> schema, required)
        else if String.eqb key "description" then
          Ret (<["description" := VString value]> schema, required)
        else if String.eqb key "format" then
          Ret (<["format" := VString value]> schema, required)
        else if String.eqb key "example" then
          typ ← assert_string (schema !! "type");
          Ret (<["example" := parseValue value typ]> schema, required)
        else Ret (schema, required)
    | _ => Ret (schema, required)
    end.

(** [parseOpenAPITag(tag, schema, required, fieldName)]: returns the
    schema and the required list as the call leaves them. *)
Definition parseOpenAPITag (tag : string) (schema : Schema)
    (required : list string) (fieldName : string) : Res (Schema * list string) :=
  foldM (parseOpenAPITag_part fieldName) (strings.Split tag ","%char)
        (schema, required).

(** One turn of the field loop of [structToSchema]; [typeToSchema] is the
    recursive call. The state is the map under ["properties"] and the
    required list. *)
Definition structToSchema_field (typeToSchema : reflect.TypeId -> Res Schema)
    (st : gmap string JValue * list string) (field : reflect.StructField)
  : Res (gmap string JValue * list string) :=
  let '(properties, required) := st in
  if negb (reflect.IsExported field) then Ret st
  else
    let jsonTag := reflect.Get (reflect.Tag field) "json" in
    if String.eqb jsonTag "" || String.eqb jsonTag "-" then Ret st
    else
      let fieldName := hd EmptyString (strings.Split jsonTag ","%char) in
      let openAPITag := reflect.Get (reflect.Tag field) "openapi" in
      fieldSchema ← typeToSchema (reflect.Type_ field);
      '(fieldSchema, required) ←
        (if String.eqb openAPITag "" then Ret (fieldSchema, required)
         else parseOpenAPITag openAPITag fieldSchema required fieldName);
      let docTag := reflect.Get (reflect.Tag field) "doc" in
      let fieldSchema :=
        if String.eqb docTag "" then fieldSchema
        else <["description" := VString docTag]> fieldSchema in
      Ret (<[fieldName := VMap fieldSchema]> properties, required).

Definition structToSchema_with (typeToSchema : reflect.TypeId -> Res Schema)
    (t : reflect.TypeId) : Res Schema :=
  '(properties, required) ←
    foldM (structToSchema_field typeToSchema) (reflect.Fields (rtypes t)) (∅, []);
  let schema : Schema :=
    <["properties" := VMap properties]> (type_only "object") in
  Ret (if (0 <? length required)%nat
       then <["required" := VStrings required]> schema
       else schema).

Definition arrayToSchema_with (typeToSchema : reflect.TypeId -> Res Schema)
    (t : reflect.TypeId) : Res Schema :=
  let itemType := reflect.Elem (rtypes t) in
  items ← typeToSchema itemType;
  Ret (<["items" := VMap items]> (type_only "array")).

Definition mapToSchema_with (typeToSchema : reflect.TypeId -> Res Schema)
    (t : reflect.TypeId) : Res Schema :=
  let valueType := reflect.Elem (rtypes t) in
  additional ← typeToSchema valueType;
  Ret (<["additionalProperties" := VMap additional]> (type_only "object")).

(** [typeToSchema]: Go recurses without a bound; here every call costs
    one unit of [fuel]. *)
Fixpoint typeToSchema (fuel : nat) (t : reflect.TypeId) : Res Schema :=
  match fuel with
  | O => OutOfFuel
  | S fuel =>
      match reflect.kind (rtypes t) with
      | reflect.Struct => structToSchema_with (typeToSchema fuel) t
      | reflect.Slice | reflect.Array => arrayToSchema_with (typeToSchema fuel) t
      | reflect.Map => mapToSchema_with (typeToSchema fuel) t
      | reflect.String => Ret (type_only "string")
      | reflect.Int | reflect.Int8 | reflect.Int16 | reflect.Int32
      | reflect.Int64 | reflect.Uint | reflect.Uint8 | reflect.Uint16
      | reflect.Uint32 | reflect.Uint64 => Ret (type_only "integer")
      | reflect.Float32 | reflect.Float64 => Ret (type_only "number")
      | reflect.Bool => Ret (type_only "boolean")
      | _ => Ret (type_only "object")
      end
  end.

Definition structToSchema (fuel : nat) (t : reflect.TypeId) : Res Schema :=
  structToSchema_with (typeToSchema fuel) t.

Definition arrayToSchema (fuel : nat) (t : reflect.TypeId) : Res Schema :=
  arrayToSchema_with (typeToSchema fuel) t.

Definition mapToSchema (fuel : nat) (t : reflect.TypeId) : Res Schema :=
  mapToSchema_with (typeToSchema fuel) t.

(** [for t.Kind() == reflect.Ptr { t = t.Elem() }] *)
Fixpoint deref (fuel : nat) (t : reflect.TypeId) : Res reflect.TypeId :=
  match fuel with
  | O => OutOfFuel
  | S fuel =>
      match reflect.kind (rtypes t) with
      | reflect.Ptr => deref fuel (reflect.Elem (rtypes t))
      | _ => Ret t
      end
  end.

(** [reflectToJSONSchema(v)]. For a string value [reflect.TypeOf(v)] is
    the predeclared [string] type: its kind is not [Ptr], and
    [typeToSchema] answers from its [String] case. *)
Definition reflectToJSONSchema (fuel : nat) (v : any) : Res Schema :=
  match v with
  | nil => Ret (type_only "object")
  | str _ => Ret (type_only "string")
  | val t => t ← deref fuel t; typeToSchema fuel t
  end.

(** ** [registry.go] *)

(** One turn of the response loop of [endpointToOperation]. *)
Definition endpointToOperation_response (fuel : nat)
    (responses : gmap string Response.t) (entry : Z * any)
  : Res (gmap string Response.t) :=
  let '(statusCode, responseType) := entry in
  let statusStr := http.StatusText statusCode in
  let statusStr := if String.eqb statusStr "" then "Response" else statusStr in
  response ←
    match responseType with
    | nil => Ret {| Response.Description := statusStr; Response.Content := ∅ |}
    | str desc => Ret {| Response.Description := desc; Response.Content := ∅ |}
    | val _ =>
        schema ← reflectToJSONSchema fuel responseType;
        Ret {| Response.Description := statusStr;
               Response.Content :=
                 {[ "application/json" :=
                      {| MediaType.Schema := schema; MediaType.Example_ := None |} ]} |}
    end;
  Ret (<[http.StatusText statusCode := response]> responses).

(** [endpointToOperation(endpoint, schemas)]. [schemas] is a Go map, so a
    write to it would reach the caller: the map is returned as the call
    leaves it. *)
Definition endpointToOperation (fuel : nat) (endpoint : EndpointConfig.t)
    (schemas : gmap string (gmap string JValue))
  : Res (Operation.t * gmap string (gmap string JValue)) :=
  requestBody ←
    match EndpointConfig.RequestBody endpoint with
    | nil => Ret None
    | body =>
        schema ← reflectToJSONSchema fuel body;
        Ret (Some {| RequestBody.Description := "";
                     RequestBody.Required := true;
                     RequestBody.Content :=
                       {[ "application/json" :=
                            {| MediaType.Schema := schema;
                               MediaType.Example_ := None |} ]} |})
    end;
  responses ←
    foldM (endpointToOperation_response fuel)
          (EndpointConfig.Responses endpoint) ∅;
  let security :=
    if (0 <? length (EndpointConfig.Security endpoint))%nat
    then map (fun scheme : string => ({[ scheme := [] ]} : gmap string (list string)))
             (EndpointConfig.Security endpoint)
    else [] in
  Ret ({| Operation.Summary := EndpointConfig.Summary endpoint;
          Operation.Description := EndpointConfig.Description endpoint;
          Operation.Tags := EndpointConfig.Tags endpoint;
          Operation.OperationID := "";
          Operation.RequestBody := requestBody;
          Operation.Responses := responses;
          Operation.Security := security |},
       schemas).

(** The [switch endpoint.Method] of [GenerateOpenAPI]: no [default] case. *)
Definition assign_method (method : string) (operation : Operation.t)
    (pathItem : PathItem.t) : PathItem.t :=
  let op := Some operation in
  if String.eqb method "GET" then
    {| PathItem.Get := op; PathItem.Post := PathItem.Post pathItem;
       PathItem.Put := PathItem.Put pathItem;
       PathItem.Delete := PathItem.Delete pathItem;
       PathItem.Patch := PathItem.Patch pathItem |}
  else if String.eqb method "POST" then
    {| PathItem.Get := PathItem.Get pathItem; PathItem.Post := op;
       PathItem.Put := PathItem.Put pathItem;
       PathItem.Delete := PathItem.Delete pathItem;
       PathItem.Patch := PathItem.Patch pathItem |}
  else if String.eqb method "PUT" then
    {| PathItem.Get := PathItem.Get pathItem; PathItem.Post := PathItem.Post pathItem;
       PathItem.Put := op;
       PathItem.Delete := PathItem.Delete pathItem;
       PathItem.Patch := PathItem.Patch pathItem |}
  else if String.eqb method "DELETE" then
    {| PathItem.Get := PathItem.Get pathItem; PathItem.Post := PathItem.Post pathItem;
       PathItem.Put := PathItem.Put pathItem;
       PathItem.Delete := op;
       PathItem.Patch := PathItem.Patch pathItem |}
  else if String.eqb method "PATCH" then
    {| PathItem.Get := PathItem.Get pathItem; PathItem.Post := PathItem.Post pathItem;
       PathItem.Put := PathItem.Put pathItem;
       PathItem.Delete := PathItem.Delete pathItem;
       PathItem.Patch := op |}
  else pathItem.

(** One turn of the endpoint loop of [GenerateOpenAPI]. *)
Definition GenerateOpenAPI_endpoint (fuel : nat) (spec : OpenAPISpec.t)
    (endpoint : EndpointConfig.t) : Res OpenAPISpec.t :=
  let pathItem :=
    match OpenAPISpec.Paths spec !! EndpointConfig.Path endpoint with
    | Some pathItem => pathItem
    | None => PathItem.zero
    end in
  '(operation, schemas) ←
    endpointToOperation fuel endpoint
      (OpenAPIComponents.Schemas (OpenAPISpec.Components spec));
  let pathItem := assign_method (EndpointConfig.Method endpoint) operation pathItem in
  Ret {| OpenAPISpec.OpenAPI := OpenAPISpec.OpenAPI spec;
         OpenAPISpec.Info := OpenAPISpec.Info spec;
         OpenAPISpec.Servers := OpenAPISpec.Servers spec;
         OpenAPISpec.Paths :=
           <[EndpointConfig.Path endpoint := pathItem]> (OpenAPISpec.Paths spec);
         OpenAPISpec.Components :=
           {| OpenAPIComponents.Schemas := schemas;
              OpenAPIComponents.SecuritySchemes :=
                OpenAPIComponents.SecuritySchemes (OpenAPISpec.Components spec) |} |}.

Definition mTLS_scheme : SecurityScheme.t :=
  {| SecurityScheme.Type_ := "mutualTLS";
     SecurityScheme.Scheme := "";
     SecurityScheme.Description :=
       "Mutual TLS authentication with client certificates" |}.

Definition Bearer_scheme : SecurityScheme.t :=
  {| SecurityScheme.Type_ := "http";
     SecurityScheme.Scheme := "bearer";
     SecurityScheme.Description :=
       "JWT Bearer token authentication (ADR-031: OAuth2 scopes validated against AuthorizationElements)" |}.

(** The document before the endpoint loop. *)
Definition GenerateOpenAPI_init (registry : EndpointRegistry.t) : OpenAPISpec.t :=
  {| OpenAPISpec.OpenAPI := "3.0.0";
     OpenAPISpec.Info := EndpointRegistry.info registry;
     OpenAPISpec.Servers :=
       [ {| OpenAPIServer.URL := EndpointRegistry.baseURL registry;
            OpenAPIServer.Description := "" |} ];
     OpenAPISpec.Paths := ∅;
     OpenAPISpec.Components :=
       {| OpenAPIComponents.Schemas := ∅;
          OpenAPIComponents.SecuritySchemes :=
            <["Bearer" := Bearer_scheme]> (<["mTLS" := mTLS_scheme]> ∅) |} |}.

(** [GenerateOpenAPI()], on the registry state it reads. *)
Definition GenerateOpenAPI (fuel : nat) (registry : EndpointRegistry.t)
  : Res OpenAPISpec.t :=
  foldM (GenerateOpenAPI_endpoint fuel) (EndpointRegistry.endpoints registry)
        (GenerateOpenAPI_init registry).

(** One turn of the response loop of [GenerateAPIDescription]. *)
Definition GenerateAPIDescription_response (fuel : nat)
    (responses : gmap string ResponseSchema.t) (entry : Z * any)
  : Res (gmap string ResponseSchema.t) :=
  let '(statusCode, responseType) := entry in
  let statusStr := http.StatusText statusCode in
  let statusStr := if String.eqb statusStr "" then "Response" else statusStr in
  respSchema ←
    match responseType with
    | nil =>
        Ret {| ResponseSchema.Description := statusStr;
               ResponseSchema.ContentType := "application/json";
               ResponseSchema.Schema := ∅;
               ResponseSchema.Example_ := None |}
    | str desc =>
        Ret {| ResponseSchema.Description := desc;
               ResponseSchema.ContentType := "text/plain";
               ResponseSchema.Schema := ∅;
               ResponseSchema.Example_ := None |}
    | val _ =>
        schema ← reflectToJSONSchema fuel responseType;
        Ret {| ResponseSchema.Description := statusStr;
               ResponseSchema.ContentType := "application/json";
               ResponseSchema.Schema := schema;
               ResponseSchema.Example_ := None |}
    end;
  Ret (<[http.StatusText statusCode := respSchema]> responses).

(** One turn of the endpoint loop of [GenerateAPIDescription]. *)
Definition GenerateAPIDescription_endpoint (fuel : nat)
    (endpoints : list APIEndpoint.t) (endpoint : EndpointConfig.t)
  : Res (list APIEndpoint.t) :=
  requestBody ←
    match EndpointConfig.RequestBody endpoint with
    | nil => Ret None
    | body =>
        schema ← reflectToJSONSchema fuel body;
        Ret (Some {| RequestBodySchema.ContentType := "application/json";
                     RequestBodySchema.Schema := schema;
                     RequestBodySchema.Required := true;
                     RequestBodySchema.Example_ := None |})
    end;
  responses ←
    foldM (GenerateAPIDescription_response fuel)
          (EndpointConfig.Responses endpoint) ∅;
  Ret (endpoints ++
       [ {| APIEndpoint.Method := EndpointConfig.Method endpoint;
            APIEndpoint.Path := EndpointConfig.Path endpoint;
            APIEndpoint.Summary := EndpointConfig.Summary endpoint;
            APIEndpoint.Description := EndpointConfig.Description endpoint;
            APIEndpoint.RequestBody := requestBody;
            APIEndpoint.Responses := responses;
            APIEndpoint.Tags := EndpointConfig.Tags endpoint |} ])%list.

(** [GenerateAPIDescription()], on the registry state it reads. *)
Definition GenerateAPIDescription (fuel : nat) (registry : EndpointRegistry.t)
  : Res APIDescription.t :=
  endpoints ←
    foldM (GenerateAPIDescription_endpoint fuel)
          (EndpointRegistry.endpoints registry) [];
  Ret {| APIDescription.ServiceName :=
           OpenAPIInfo.Title (EndpointRegistry.info registry);
         APIDescription.Version :=
           OpenAPIInfo.Version (EndpointRegistry.info registry);
         APIDescription.BaseURL := EndpointRegistry.baseURL registry;
         APIDescription.Endpoints := endpoints |}.

(** [SetServiceInfo] and [RegisterEndpoint], as state transformers. *)
Definition SetServiceInfo (title version description baseURL : string)
    (registry : EndpointRegistry.t) : EndpointRegistry.t :=
  {| EndpointRegistry.endpoints := EndpointRegistry.endpoints registry;
     EndpointRegistry.info :=
       {| OpenAPIInfo.Title := title;
          OpenAPIInfo.Description := description;
          OpenAPIInfo.Version := version |};
     EndpointRegistry.baseURL := baseURL |}.

Definition RegisterEndpoint (cfg : EndpointConfig.t)
    (registry : EndpointRegistry.t) : EndpointRegistry.t :=
  {| EndpointRegistry.endpoints := EndpointRegistry.endpoints registry ++ [cfg];
     EndpointRegistry.info := EndpointRegistry.info registry;
     EndpointRegistry.baseURL := EndpointRegistry.baseURL registry |}.

(** [GetEndpoints()]: [append([]EndpointConfig{}, registry.endpoints...)],
    a fresh slice with the registered endpoints. *)
Definition GetEndpoints (registry : EndpointRegistry.t) : list EndpointConfig.t :=
  ([] ++ EndpointRegistry.endpoints registry)%list.

(** A call of one of the two functions that write the registry. *)
Inductive RegistryCall : Type :=
| Call_SetServiceInfo (title version description baseURL : string)
| Call_RegisterEndpoint (cfg : EndpointConfig.t).

Definition call (registry : EndpointRegistry.t) (c : RegistryCall)
  : EndpointRegistry.t :=
  match c with
  | Call_SetServiceInfo title version description baseURL =>
      SetServiceInfo title version description baseURL registry
  | Call_RegisterEndpoint cfg => RegisterEndpoint cfg registry
  end.

(** The registry after a sequence of calls, made one after the other
    under the lock. *)
Definition calls (cs : list RegistryCall) (registry : EndpointRegistry.t)
  : EndpointRegistry.t :=
  fold_left call cs registry.

(** ** Vocabulary of the statements *)

(** The annotation keys that [parseOpenAPITag] knows. *)
Definition recognized_keys : list string :=
  [ "enum"; "min"; "minimum"; "max"; "maximum"; "minLength"; "maxLength";
    "pattern"; "default"; "description"; "format"; "example" ].

(** A token is the bare word [required]. *)
Definition is_required (part : string) : bool :=
  String.eqb (strings.TrimSpace part) "required".

(** A token that is not [required] and is malformed (no ["="]) or has a
    key outside [recognized_keys]. *)
Definition dropped (part : string) : bool :=
  negb (is_required part) &&
  match strings.Cut (strings.TrimSpace part) "="%char with
  | None => true
  | Some (k, _) =>
      negb (existsb (String.eqb (strings.TrimSpace k)) recognized_keys)
  end.

(** How often the token [required] occurs in an annotation string. *)
Definition required_count (tag : string) : nat :=
  length (filter (fun part => is_required part = true)
                 (strings.Split tag ","%char)).

(** The schema key and the value a token assigns in a schema whose
    ["type"] is [typ]; [None] for [required] and for dropped tokens. *)
Definition part_value (typ part : string) : option (string * JValue) :=
  let part := strings.TrimSpace part in
  if String.eqb part "required" then None
  else
    match strings.SplitN2 part "="%char with
    | [k; v] =>
        let key := strings.TrimSpace k in
        let value := strings.TrimSpace v in
        if String.eqb key "enum" then
          Some ("enum", VStrings (strings.Split value "|"%char))
        else if String.eqb key "min" || String.eqb key "minimum" then
          Some ("minimum", parseNumber value)
        else if String.eqb key "max" || String.eqb key "maximum" then
          Some ("maximum", parseNumber value)
        else if String.eqb key "minLength" then
          Some ("minLength", parseNumber value)
        else if String.eqb key "maxLength" then
          Some ("maxLength", parseNumber value)
        else if String.eqb key "pattern" then Some ("pattern", VString value)
        else if String.eqb key "default" then
          Some ("default", parseValue value typ)
        else if String.eqb key "description" then
          Some ("description", VString value)
        else if String.eqb key "format" then Some ("format", VString value)
        else if String.eqb key "example" then
          Some ("example", parseValue value typ)
        else None
    | _ => None
    end.

(** The schema after one token, and after a list of tokens. *)
Definition apply_part (typ : string) (schema : Schema) (part : string) : Schema :=
  match part_value typ part with
  | Some (k, v) => <[k := v]> schema
  | None => schema
  end.

Definition apply_parts (typ : string) (parts : list string) (schema : Schema)
  : Schema :=
  fold_left (apply_part typ) parts schema.



(** The fields that the loop of [structToSchema] does not skip: exported,
    with a [json] tag other than [""] and ["-"]. *)
Definition visible (field : reflect.StructField) : bool :=
  reflect.IsExported field &&
  negb (String.eqb (reflect.Get (reflect.Tag field) "json") "" ||
        String.eqb (reflect.Get (reflect.Tag field) "json") "-").

Definition visible_fields (t : reflect.TypeId) : list reflect.StructField :=
  filter (fun field => visible field = true) (reflect.Fields (rtypes t)).

(** The serialization name of a field. *)
Definition field_name (field : reflect.StructField) : string :=
  hd EmptyString (strings.Split (reflect.Get (reflect.Tag field) "json") ","%char).

Definition openapi_tag (field : reflect.StructField) : string :=
  reflect.Get (reflect.Tag field) "openapi".


(** The types that one call of [typeToSchema] on [t] recurses into. *)
Definition walk_children (t : reflect.TypeId) : list reflect.TypeId :=
  match reflect.kind (rtypes t) with
  | reflect.Struct => map reflect.Type_ (visible_fields t)
  | reflect.Slice | reflect.Array | reflect.Map => [reflect.Elem (rtypes t)]
  | _ => []
  end.

(** [walk c p]: the type walk steps from [p] to [c]. The walk from [t]
    ends when [Acc walk t]. *)
Definition walk (c p : reflect.TypeId) : Prop := In c (walk_children p).

(** The value handed to [reflectToJSONSchema] has a finite type walk: its
    pointer chain ends, and the walk from the type under it ends. *)
Definition finite_walk (v : any) : Prop :=
  match v with
  | val t => exists n t', deref n t = Ret t' /\ Acc walk t'
  | _ => True
  end.

(** What the field loop of [structToSchema] appends to the required list:
    the name of a field once for every [required] token of its tag. *)
Definition required_names (fields : list reflect.StructField) : list string :=
  flat_map (fun field =>
              replicate (required_count (openapi_tag field)) (field_name field))
           fields.

(** The schema that [structToSchema] assembles after the field loop. *)
Definition struct_schema (properties : gmap string JValue)
    (required : list string) : Schema :=
  let schema : Schema :=
    <["properties" := VMap properties]> (type_only "object") in
  if (0 <? length required)%nat
  then <["required" := VStrings required]> schema
  else schema.

(** The kinds that [typeToSchema] maps to a schema of their own. *)
Definition supported (k : reflect.Kind) : bool :=
  match k with
  | reflect.Struct | reflect.Slice | reflect.Array | reflect.Map
  | reflect.String | reflect.Bool
  | reflect.Int | reflect.Int8 | reflect.Int16 | reflect.Int32 | reflect.Int64
  | reflect.Uint | reflect.Uint8 | reflect.Uint16 | reflect.Uint32
  | reflect.Uint64 | reflect.Float32 | reflect.Float64 => true
  | _ => false
  end.

(** The methods that [GenerateOpenAPI] has a slot for. *)
Definition recognized_method (method : string) : bool :=
  existsb (String.eqb method) ["GET"; "POST"; "PUT"; "DELETE"; "PATCH"].

(** [pathItem, ok := spec.Paths[path]; if !ok { pathItem = PathItem{} }] *)
Definition path_item (spec : OpenAPISpec.t) (path : string) : PathItem.t :=
  match OpenAPISpec.Paths spec !! path with
  | Some pathItem => pathItem
  | None => PathItem.zero
  end.



(** The response that the loop of [endpointToOperation] builds for one
    entry, when the reflector answers [schema] for a value to reflect. *)
Definition response_of (statusCode : Z) (responseType : any) (schema : Schema)
  : Response.t :=
  let phrase := http.StatusText statusCode in
  let statusStr := if String.eqb phrase "" then "Response" else phrase in
  match responseType with
  | nil => {| Response.Description := statusStr; Response.Content := ∅ |}
  | str desc => {| Response.Description := desc; Response.Content := ∅ |}
  | val _ =>
      {| Response.Description := statusStr;
         Response.Content :=
           {[ "application/json" :=
                {| MediaType.Schema := schema; MediaType.Example_ := None |} ]} |}
  end.

(** The endpoints that a sequence of calls registers, and the service
    info and base URL that it leaves. *)
Definition registered (cs : list RegistryCall) : list EndpointConfig.t :=
  flat_map (fun c => match c with
                     | Call_RegisterEndpoint cfg => [cfg]
                     | Call_SetServiceInfo _ _ _ _ => []
                     end) cs.

Definition last_service_info (cs : list RegistryCall)
    (start : OpenAPIInfo.t * string) : OpenAPIInfo.t * string :=
  fold_left (fun st c =>
               match c with
               | Call_SetServiceInfo title version description baseURL =>
                   ({| OpenAPIInfo.Title := title;
                       OpenAPIInfo.Description := description;
                       OpenAPIInfo.Version := version |}, baseURL)
               | Call_RegisterEndpoint _ => st
               end) cs start.

(** The string under ["type"] of a schema. *)
Definition type_of (schema : Schema) : string :=
  match schema !! "type" with
  | Some (VString typ) => typ
  | _ => EmptyString
  end.

(** The schema of a field: the schema of its type, after the tokens of
    its [openapi] tag in the order written, and after its [doc] tag. *)
Definition annotate (field : reflect.StructField) (base : Schema) : Schema :=
  let annotated :=
    if String.eqb (openapi_tag field) "" then base
    else apply_parts (type_of base)
           (strings.Split (openapi_tag field) ","%char) base in
  let docTag := reflect.Get (reflect.Tag field) "doc" in
  if String.eqb docTag "" then annotated
  else <["description" := VString docTag]> annotated.

(** The schema keys that annotation tokens assign. *)
Definition annotation_keys : list string :=
  [ "enum"; "minimum"; "maximum"; "minLength"; "maxLength"; "pattern";
    "default"; "description"; "format"; "example" ].

(** The shape of the schemas that the reflector builds: a ["type"], and
    nested schemas under ["items"], ["additionalProperties"] and
    ["properties"] exactly where the type has them. *)
Inductive schema_ok : Schema -> Prop :=
| ok_plain (s : Schema) (typ : string) :
    s !! "type" = Some (VString typ) ->
    In typ ["string"; "integer"; "number"; "boolean"; "object"] ->
    s !! "items" = None -> s !! "properties" = None ->
    s !! "additionalProperties" = None ->
    schema_ok s
| ok_array (s items : Schema) :
    s !! "type" = Some (VString "array") ->
    s !! "items" = Some (VMap items) -> schema_ok items ->
    s !! "properties" = None -> s !! "additionalProperties" = None ->
    schema_ok s
| ok_map (s additional : Schema) :
    s !! "type" = Some (VString "object") ->
    s !! "additionalProperties" = Some (VMap additional) ->
    schema_ok additional ->
    s !! "items" = None -> s !! "properties" = None ->
    schema_ok s
| ok_struct (s : Schema) (properties : gmap string JValue) :
    s !! "type" = Some (VString "object") ->
    s !! "properties" = Some (VMap properties) ->
    (forall name v, properties !! name = Some v ->
       exists fieldSchema, v = VMap fieldSchema /\ schema_ok fieldSchema) ->
    s !! "items" = None -> s !! "additionalProperties" = None ->
    schema_ok s.

(** The operation in the slot of a method, [None] for a method without a
    slot. *)
Definition slot (method : string) (pathItem : PathItem.t) : option Operation.t :=
  if String.eqb method "GET" then PathItem.Get pathItem
  else if String.eqb method "POST" then PathItem.Post pathItem
  else if String.eqb method "PUT" then PathItem.Put pathItem
  else if String.eqb method "DELETE" then PathItem.Delete pathItem
  else if String.eqb method "PATCH" then PathItem.Patch pathItem
  else None.

(** Every value that the generators reflect for an endpoint has a finite
    type walk. *)
Definition endpoint_finite (endpoint : EndpointConfig.t) : Prop :=
  finite_walk (EndpointConfig.RequestBody endpoint)
  /\ (forall code v, In (code, v) (EndpointConfig.Responses endpoint) ->
        finite_walk v).

(** The response schema that the loop of [GenerateAPIDescription] builds
    for one entry. *)
Definition response_schema_of (statusCode : Z) (responseType : any)
    (schema : Schema) : ResponseSchema.t :=
  let phrase := http.StatusText statusCode in
  let statusStr := if String.eqb phrase "" then "Response" else phrase in
  match responseType with
  | nil => {| ResponseSchema.Description := statusStr;
              ResponseSchema.ContentType := "application/json";
              ResponseSchema.Schema := ∅;
              ResponseSchema.Example_ := None |}
  | str desc => {| ResponseSchema.Description := desc;
                   ResponseSchema.ContentType := "text/plain";
                   ResponseSchema.Schema := ∅;
                   ResponseSchema.Example_ := None |}
  | val _ => {| ResponseSchema.Description := statusStr;
                ResponseSchema.ContentType := "application/json";
                ResponseSchema.Schema := schema;
                ResponseSchema.Example_ := None |}
  end.

(** The entry [a] of the API description describes the endpoint [e]:
    the five plain fields are copied, the request body is the reflected
    one, and the responses are keyed by the status phrases. *)
Definition describes (fuel : nat) (e : EndpointConfig.t) (a : APIEndpoint.t)
  : Prop :=
  APIEndpoint.Method a = EndpointConfig.Method e
  /\ APIEndpoint.Path a = EndpointConfig.Path e
  /\ APIEndpoint.Summary a = EndpointConfig.Summary e
  /\ APIEndpoint.Description a = EndpointConfig.Description e
  /\ APIEndpoint.Tags a = EndpointConfig.Tags e
  /\ match EndpointConfig.RequestBody e with
     | nil => APIEndpoint.RequestBody a = None
     | body =>
         exists schema : Schema,
           reflectToJSONSchema fuel body = Ret schema
           /\ APIEndpoint.RequestBody a
              = Some {| RequestBodySchema.ContentType := "application/json";
                        RequestBodySchema.Schema := schema;
                        RequestBodySchema.Required := true;
                        RequestBodySchema.Example_ := None |}
     end
  /\ dom (APIEndpoint.Responses a)
     = list_to_set (map (fun entry => http.StatusText entry.1)
                        (EndpointConfig.Responses e)).

Local Close Scope Z_scope.
Local Open Scope list_scope.

(** * Properties *)

(** ** Outcomes and loops *)

Lemma foldM_app {A B : Type} (f : A -> B -> Res A) (l1 l2 : list B) (a : A) :
  foldM f (l1 ++ l2) a = (a' ← foldM f l1 a; foldM f l2 a').
Proof.
  revert a. induction l1 as [|x l1 IH]; intros a; simpl; [done|].
  destruct (f a x); simpl; auto.
Qed.

Lemma bind_Ret_inv {A B : Type} (m : Res A) (f : A -> Res B) (b : B) :
  (a ← m; f a) = Ret b -> exists a, m = Ret a /\ f a = Ret b.
Proof. destruct m; simpl; intros H; try discriminate. eauto. Qed.

(** ** The annotation parser *)

Lemma part_value_not_type (typ part k : string) (v : JValue) :
  part_value typ part = Some (k, v) -> k <> "type".
Proof.
  unfold part_value. intros H.
  destruct (String.eqb (strings.TrimSpace part) "required"); [discriminate|].
  destruct (strings.SplitN2 _ _) as [|a [|b [|c l]]]; try discriminate.
  repeat match type of H with
  | (if ?c then _ else _) = _ => destruct c
  end; try discriminate; injection H as <- _; discriminate.
Qed.


Lemma apply_part_type (typ typ' part : string) (schema : Schema) :
  schema !! "type" = Some (VString typ') ->
  apply_part typ schema part !! "type" = Some (VString typ').
Proof.
  intros H. unfold apply_part.
  destruct (part_value typ part) as [[k v]|] eqn:E; [|done].
  rewrite lookup_insert_ne; [done|]. eapply part_value_not_type, E.
Qed.

(** One turn of the loop, on a schema that has a string under ["type"]. *)
Lemma parseOpenAPITag_part_spec (fieldName part typ : string)
    (schema : Schema) (required : list string) :
  schema !! "type" = Some (VString typ) ->
  parseOpenAPITag_part fieldName (schema, required) part
  = Ret (apply_part typ schema part,
         if is_required part then required ++ [fieldName] else required).
Proof.
  intros Hty. unfold parseOpenAPITag_part, apply_part, part_value, is_required.
  destruct (String.eqb (strings.TrimSpace part) "required"); [done|].
  destruct (strings.SplitN2 _ _) as [|a [|b [|c l]]]; try done.
  rewrite Hty. simpl.
  repeat match goal with
  | |- context [if ?c then _ else _] => destruct c; [done|]
  end; done.
Qed.

Lemma parseOpenAPITag_parts_spec (fieldName typ : string) (parts : list string) :
  forall (schema : Schema) (required : list string),
  schema !! "type" = Some (VString typ) ->
  foldM (parseOpenAPITag_part fieldName) parts (schema, required)
  = Ret (apply_parts typ parts schema,
         required ++
         replicate (length (filter (fun part => is_required part = true) parts))
                   fieldName).
Proof.
  induction parts as [|part parts IH]; intros schema required Hty; cbn [foldM].
  - simpl. by rewrite app_nil_r.
  - rewrite (parseOpenAPITag_part_spec _ _ typ) by done. cbn [mbind Res_bind].
    rewrite IH by (by apply apply_part_type).
    unfold apply_parts. cbn [fold_left]. rewrite filter_cons.
    destruct (is_required part).
    + rewrite decide_True by done. simpl. by rewrite <- app_assoc.
    + rewrite decide_False by done. done.
Qed.

Lemma parseOpenAPITag_spec (tag fieldName typ : string) (schema : Schema)
    (required : list string) :
  schema !! "type" = Some (VString typ) ->
  parseOpenAPITag tag schema required fieldName
  = Ret (apply_parts typ (strings.Split tag ","%char) schema,
         required ++ replicate (required_count tag) fieldName).
Proof. intros H. unfold parseOpenAPITag. by apply parseOpenAPITag_parts_spec. Qed.

Lemma apply_parts_type (typ typ' : string) (parts : list string) (schema : Schema) :
  schema !! "type" = Some (VString typ') ->
  apply_parts typ parts schema !! "type" = Some (VString typ').
Proof.
  revert schema. induction parts as [|p parts IH]; intros schema H; [done|].
  apply IH. by apply apply_part_type.
Qed.


(** Conversely, a token that assigns nothing and is not [required] is a
    dropped one. *)
Lemma part_value_None_dropped (typ part : string) :
  part_value typ part = None -> is_required part = false -> dropped part = true.
Proof.
  unfold dropped, part_value, is_required, strings.SplitN2.
  intros H E. rewrite E in *. simpl.
  destruct (strings.Cut _ _) as [[k v]|]; [|done].
  simpl in *.
  repeat match type of H with
  | (if ?c || ?d then _ else _) = _ =>
      destruct c; [discriminate|]; destruct d; [discriminate|]; simpl in H
  | (if ?c then _ else _) = _ => destruct c; [discriminate|]
  end. done.
Qed.





(** ** The type walk *)

Lemma type_only_type (ty : string) : type_only ty !! "type" = Some (VString ty).
Proof. apply lookup_singleton_eq. Qed.

(** One turn of the field loop: a skipped field... *)
Lemma structToSchema_field_skip (rec : reflect.TypeId -> Res Schema)
    (st : gmap string JValue * list string) (field : reflect.StructField) :
  visible field = false -> structToSchema_field rec st field = Ret st.
Proof.
  unfold visible, structToSchema_field. destruct st as [props req].
  destruct (reflect.IsExported field); simpl; [|done].
  intros H. apply negb_false_iff in H. by rewrite H.
Qed.

(** ...and a visible one, whose type the recursive call answers. *)
Lemma structToSchema_field_visible (rec : reflect.TypeId -> Res Schema)
    (props : gmap string JValue) (req : list string)
    (field : reflect.StructField) (base : Schema) (typ : string) :
  visible field = true ->
  rec (reflect.Type_ field) = Ret base ->
  base !! "type" = Some (VString typ) ->
  exists fieldSchema : Schema,
    structToSchema_field rec (props, req) field
    = Ret (<[field_name field := VMap fieldSchema]> props,
           req ++ replicate (required_count (openapi_tag field)) (field_name field))
    /\ fieldSchema !! "type" = Some (VString typ).
Proof.
  unfold visible, structToSchema_field. intros Hv Hrec Hty.
  apply andb_true_iff in Hv as [-> Hv]. apply negb_true_iff in Hv.
  rewrite Hv, Hrec. cbn [negb mbind Res_bind].
  fold (openapi_tag field) (field_name field).
  set (doc := reflect.Get (reflect.Tag field) "doc").
  destruct (String.eqb (openapi_tag field) "") eqn:Etag.
  - apply String.eqb_eq in Etag. rewrite Etag.
    change (required_count "") with 0%nat. simpl replicate. rewrite app_nil_r.
    cbn [mbind Res_bind].
    destruct (String.eqb doc ""); eexists; (split; [reflexivity|]);
      [done|by rewrite lookup_insert_ne].
  - rewrite (parseOpenAPITag_spec _ _ typ) by done. cbn [mbind Res_bind].
    destruct (String.eqb doc ""); eexists; (split; [reflexivity|]);
      [|rewrite lookup_insert_ne by done]; by apply apply_parts_type.
Qed.

(** The recursive calls of a returning field loop returned. *)
Lemma structToSchema_field_inv (rec : reflect.TypeId -> Res Schema)
    (st st' : gmap string JValue * list string) (field : reflect.StructField) :
  structToSchema_field rec st field = Ret st' ->
  visible field = true -> exists base, rec (reflect.Type_ field) = Ret base.
Proof.
  unfold visible, structToSchema_field. destruct st as [props req].
  intros H Hv. apply andb_true_iff in Hv as [Hx Hv]. apply negb_true_iff in Hv.
  rewrite Hx, Hv in H. cbn [negb] in H.
  destruct (rec (reflect.Type_ field)); try discriminate. eauto.
Qed.

Lemma foldM_mono {A B : Type} (f f' : A -> B -> Res A) (l : list B) :
  (forall a x a', f a x = Ret a' -> f' a x = Ret a') ->
  forall a a', foldM f l a = Ret a' -> foldM f' l a = Ret a'.
Proof.
  intros Hf. induction l as [|x l IH]; intros a a' H; [done|].
  cbn [foldM] in *. apply bind_Ret_inv in H as (a1 & H1 & H2).
  rewrite (Hf _ _ _ H1). cbn [mbind Res_bind]. by apply IH.
Qed.

Lemma structToSchema_field_mono (rec rec' : reflect.TypeId -> Res Schema) :
  (forall t s, rec t = Ret s -> rec' t = Ret s) ->
  forall st field st',
  structToSchema_field rec st field = Ret st' ->
  structToSchema_field rec' st field = Ret st'.
Proof.
  intros Hrec [props req] field st'. unfold structToSchema_field.
  destruct (negb _); [done|]. destruct (_ || _); [done|].
  destruct (rec (reflect.Type_ field)) as [base| |] eqn:E; try discriminate.
  by rewrite (Hrec _ _ E).
Qed.

Lemma typeToSchema_S (fuel : nat) (t : reflect.TypeId) :
  typeToSchema (S fuel) t =
  match reflect.kind (rtypes t) with
  | reflect.Struct => structToSchema fuel t
  | reflect.Slice | reflect.Array => arrayToSchema fuel t
  | reflect.Map => mapToSchema fuel t
  | reflect.String => Ret (type_only "string")
  | reflect.Int | reflect.Int8 | reflect.Int16 | reflect.Int32
  | reflect.Int64 | reflect.Uint | reflect.Uint8 | reflect.Uint16
  | reflect.Uint32 | reflect.Uint64 => Ret (type_only "integer")
  | reflect.Float32 | reflect.Float64 => Ret (type_only "number")
  | reflect.Bool => Ret (type_only "boolean")
  | _ => Ret (type_only "object")
  end.
Proof. reflexivity. Qed.

(** More fuel does not change a result. *)
Lemma typeToSchema_mono (fuel : nat) :
  forall t s, typeToSchema fuel t = Ret s -> typeToSchema (S fuel) t = Ret s.
Proof.
  induction fuel as [|fuel IH]; intros t s H; [discriminate|].
  rewrite typeToSchema_S in *.
  unfold structToSchema, arrayToSchema, mapToSchema, structToSchema_with,
    arrayToSchema_with, mapToSchema_with in *.
  destruct (reflect.kind (rtypes t)); try done.
  - apply bind_Ret_inv in H as (items & H1 & H2).
    by rewrite (IH _ _ H1).
  - apply bind_Ret_inv in H as (items & H1 & H2).
    by rewrite (IH _ _ H1).
  - apply bind_Ret_inv in H as (items & H1 & H2).
    by rewrite (IH _ _ H1).
  - apply bind_Ret_inv in H as (st & H1 & H2).
    erewrite foldM_mono; [exact H2| |exact H1].
    intros a x a'. by apply structToSchema_field_mono.
Qed.

Lemma typeToSchema_le (fuel fuel' : nat) (t : reflect.TypeId) (s : Schema) :
  typeToSchema fuel t = Ret s -> fuel <= fuel' -> typeToSchema fuel' t = Ret s.
Proof.
  intros H Hle. induction Hle as [|m Hle IH]; [done|]. by apply typeToSchema_mono.
Qed.

Lemma deref_le (fuel fuel' : nat) (t t' : reflect.TypeId) :
  deref fuel t = Ret t' -> fuel <= fuel' -> deref fuel' t = Ret t'.
Proof.
  revert fuel' t. induction fuel as [|fuel IH]; intros fuel' t H Hle; [discriminate|].
  destruct fuel' as [|fuel']; [lia|]. simpl in *.
  destruct (reflect.kind (rtypes t)); try done; apply IH; [done|lia].
Qed.

(** Every schema that [typeToSchema] returns has a string under
    ["type"]: the assertion in [parseOpenAPITag] cannot fail on it. *)
Lemma typeToSchema_has_type (fuel : nat) (t : reflect.TypeId) (s : Schema) :
  typeToSchema fuel t = Ret s -> exists typ, s !! "type" = Some (VString typ).
Proof.
  destruct fuel as [|fuel]; [discriminate|]. rewrite typeToSchema_S.
  unfold structToSchema, arrayToSchema, mapToSchema, structToSchema_with,
    arrayToSchema_with, mapToSchema_with.
  destruct (reflect.kind (rtypes t)); intros H;
    try (injection H as <-; eexists; apply type_only_type).
  - apply bind_Ret_inv in H as (items & _ & H). injection H as <-.
    eexists. rewrite lookup_insert_ne by done. apply type_only_type.
  - apply bind_Ret_inv in H as (items & _ & H). injection H as <-.
    eexists. rewrite lookup_insert_ne by done. apply type_only_type.
  - apply bind_Ret_inv in H as (items & _ & H). injection H as <-.
    eexists. rewrite lookup_insert_ne by done. apply type_only_type.
  - apply bind_Ret_inv in H as ([props req] & _ & H). injection H as <-.
    eexists. destruct (0 <? length req)%nat;
      rewrite ?lookup_insert_ne by done; apply type_only_type.
Qed.

(** The field loop, when the recursive call answers every visible field:
    it returns, the properties are exactly the names of the visible
    fields, and the required list grows by [required_names]. *)
Lemma structToSchema_fields_spec (rec : reflect.TypeId -> Res Schema)
    (fields : list reflect.StructField) :
  (forall field, In field fields -> visible field = true ->
     exists base typ, rec (reflect.Type_ field) = Ret base
                      /\ base !! "type" = Some (VString typ)) ->
  forall (props : gmap string JValue) (req : list string),
  exists props' : gmap string JValue,
    foldM (structToSchema_field rec) fields (props, req)
    = Ret (props',
           req ++ required_names (filter (fun f => visible f = true) fields))
    /\ dom props'
       = dom props ∪
         list_to_set (map field_name (filter (fun f => visible f = true) fields)).
Proof.
  induction fields as [|field fields IH]; intros Hrec props req.
  - exists props. simpl. rewrite app_nil_r. split; [done|]. set_solver.
  - cbn [foldM]. rewrite filter_cons. destruct (visible field) eqn:Hv.
    + rewrite decide_True by done.
      destruct (Hrec field (or_introl eq_refl) Hv) as (base & typ & Hb & Hty).
      destruct (structToSchema_field_visible rec props req field base typ Hv Hb Hty)
        as (fs & -> & _).
      cbn [mbind Res_bind].
      destruct (IH (fun f Hf => Hrec f (or_intror Hf))
                   (<[field_name field := VMap fs]> props)
                   (req ++ replicate (required_count (openapi_tag field))
                                     (field_name field)))
        as (props' & -> & Hdom).
      exists props'. split.
      * simpl. by rewrite <- app_assoc.
      * rewrite Hdom, dom_insert_L. simpl. set_solver.
    + rewrite decide_False by done.
      rewrite structToSchema_field_skip by done. cbn [mbind Res_bind].
      apply IH. intros f Hf. apply Hrec. by right.
Qed.

(** Finitely many returning calls return with one common fuel. *)
Lemma common_fuel (l : list reflect.TypeId) :
  (forall c, In c l -> exists fuel s, typeToSchema fuel c = Ret s) ->
  exists N, forall c, In c l -> exists s, typeToSchema N c = Ret s.
Proof.
  induction l as [|c l IH]; intros H.
  - exists 0. intros c [].
  - destruct IH as [N HN]; [intros c' Hc'; apply H; by right|].
    destruct (H c (or_introl eq_refl)) as (n & s & Hs).
    exists (max n N). intros c' [<-|Hc'].
    + exists s. eapply typeToSchema_le; [exact Hs|lia].
    + destruct (HN c' Hc') as [s' Hs']. exists s'.
      eapply typeToSchema_le; [exact Hs'|lia].
Qed.

(** A struct whose visible fields the walk answers: the call returns the
    schema assembled from the properties and [required_names]. *)
Lemma structToSchema_spec (t : reflect.TypeId) :
  reflect.kind (rtypes t) = reflect.Struct ->
  (forall c, walk c t -> exists fuel s, typeToSchema fuel c = Ret s) ->
  exists (N : nat) (props : gmap string JValue),
    (forall fuel, N <= fuel ->
       typeToSchema (S fuel) t
       = Ret (struct_schema props (required_names (visible_fields t))))
    /\ dom props = list_to_set (map field_name (visible_fields t)).
Proof.
  intros K Hwalk. unfold walk, walk_children in Hwalk. rewrite K in Hwalk.
  destruct (common_fuel _ Hwalk) as [N HN]. exists N.
  assert (Hrec : forall field, In field (reflect.Fields (rtypes t)) ->
            visible field = true ->
            exists base typ, typeToSchema N (reflect.Type_ field) = Ret base
                             /\ base !! "type" = Some (VString typ)).
  { intros field Hin Hv.
    destruct (HN (reflect.Type_ field)) as [base Hb].
    - apply in_map. unfold visible_fields.
      apply list_elem_of_In, list_elem_of_filter. split; [done|].
      by apply list_elem_of_In.
    - destruct (typeToSchema_has_type _ _ _ Hb) as [typ Hty]. eauto. }
  destruct (structToSchema_fields_spec (typeToSchema N) _ Hrec ∅ [])
    as (props & Hfold & Hdom).
  exists props. split.
  - intros fuel Hle. rewrite typeToSchema_S, K.
    unfold structToSchema, structToSchema_with.
    erewrite foldM_mono; [| |exact Hfold].
    + reflexivity.
    + intros a x a'. apply structToSchema_field_mono.
      intros t' s' Hs'. eapply typeToSchema_le; [exact Hs'|done].
  - rewrite Hdom, dom_empty_L. fold (visible_fields t). set_solver.
Qed.

(** The walk from [t] ends: [typeToSchema] returns. *)
Lemma typeToSchema_total (t : reflect.TypeId) :
  Acc walk t -> exists fuel s, typeToSchema fuel t = Ret s.
Proof.
  induction 1 as [t _ IH].
  destruct (reflect.kind (rtypes t)) eqn:K;
    try (exists 1; eexists; rewrite typeToSchema_S, K; reflexivity).
  - destruct (IH (reflect.Elem (rtypes t))) as (n & s & Hs).
    { unfold walk, walk_children. rewrite K. by left. }
    exists (S n). eexists. rewrite typeToSchema_S, K.
    unfold arrayToSchema, arrayToSchema_with. rewrite Hs. reflexivity.
  - destruct (IH (reflect.Elem (rtypes t))) as (n & s & Hs).
    { unfold walk, walk_children. rewrite K. by left. }
    exists (S n). eexists. rewrite typeToSchema_S, K.
    unfold mapToSchema, mapToSchema_with. rewrite Hs. reflexivity.
  - destruct (IH (reflect.Elem (rtypes t))) as (n & s & Hs).
    { unfold walk, walk_children. rewrite K. by left. }
    exists (S n). eexists. rewrite typeToSchema_S, K.
    unfold arrayToSchema, arrayToSchema_with. rewrite Hs. reflexivity.
  - destruct (structToSchema_spec t K IH) as (N & props & H & _).
    exists (S N). eexists. by apply H.
Qed.

(** Conversely, [typeToSchema] returns only when the walk ends. *)
Lemma foldM_field_inv (rec : reflect.TypeId -> Res Schema)
    (fields : list reflect.StructField) :
  forall st st', foldM (structToSchema_field rec) fields st = Ret st' ->
  forall field, In field fields -> visible field = true ->
  exists base, rec (reflect.Type_ field) = Ret base.
Proof.
  induction fields as [|f fields IH]; intros st st' H field Hin Hv; [done|].
  cbn [foldM] in H. apply bind_Ret_inv in H as (st1 & H1 & H2).
  destruct Hin as [<-|Hin].
  - by eapply structToSchema_field_inv.
  - by eapply IH.
Qed.

Lemma typeToSchema_Ret_Acc (fuel : nat) :
  forall t s, typeToSchema fuel t = Ret s -> Acc walk t.
Proof.
  induction fuel as [|fuel IH]; intros t s H; [discriminate|].
  rewrite typeToSchema_S in H. constructor. intros c Hc.
  unfold walk, walk_children in Hc.
  unfold structToSchema, arrayToSchema, mapToSchema, structToSchema_with,
    arrayToSchema_with, mapToSchema_with in H.
  destruct (reflect.kind (rtypes t)); try (exfalso; exact Hc).
  - destruct Hc as [<-|[]]. apply bind_Ret_inv in H as (x & H & _). by eapply IH.
  - destruct Hc as [<-|[]]. apply bind_Ret_inv in H as (x & H & _). by eapply IH.
  - destruct Hc as [<-|[]]. apply bind_Ret_inv in H as (x & H & _). by eapply IH.
  - apply bind_Ret_inv in H as (st & H & _).
    apply in_map_iff in Hc as (field & <- & Hf).
    apply list_elem_of_In, list_elem_of_filter in Hf as [Hv Hf].
    apply list_elem_of_In in Hf.
    destruct (foldM_field_inv _ _ _ _ H field Hf Hv) as [base Hb]. by eapply IH.
Qed.


Lemma typeToSchema_unsupported (fuel : nat) (t : reflect.TypeId) :
  supported (reflect.kind (rtypes t)) = false ->
  typeToSchema (S fuel) t = Ret (type_only "object").
Proof.
  rewrite typeToSchema_S. by destruct (reflect.kind (rtypes t)).
Qed.

(** A pointer met inside the walk is not followed: it is one of the kinds
    of the [default] case. *)
Lemma typeToSchema_Ptr (fuel : nat) (t : reflect.TypeId) :
  reflect.kind (rtypes t) = reflect.Ptr ->
  typeToSchema (S fuel) t = Ret (type_only "object").
Proof. intros K. apply typeToSchema_unsupported. by rewrite K. Qed.

Lemma reflectToJSONSchema_le (fuel fuel' : nat) (v : any) (s : Schema) :
  reflectToJSONSchema fuel v = Ret s -> fuel <= fuel' ->
  reflectToJSONSchema fuel' v = Ret s.
Proof.
  destruct v as [| |t]; simpl; try done. intros H Hle.
  apply bind_Ret_inv in H as (t' & H1 & H2).
  rewrite (deref_le _ _ _ _ H1 Hle). simpl. by eapply typeToSchema_le.
Qed.

(** No call of the reflector panics, finite walk or not. *)
Lemma structToSchema_field_no_panic (rec : reflect.TypeId -> Res Schema)
    (st : gmap string JValue * list string) (field : reflect.StructField) :
  (forall t, rec t <> Panic) ->
  (forall t s, rec t = Ret s -> exists typ, s !! "type" = Some (VString typ)) ->
  structToSchema_field rec st field <> Panic.
Proof.
  intros Hnp Hty. destruct st as [props req].
  destruct (visible field) eqn:Hv.
  - destruct (rec (reflect.Type_ field)) as [base| |] eqn:E.
    + destruct (Hty _ _ E) as [typ Ht].
      destruct (structToSchema_field_visible rec props req field base typ Hv E Ht)
        as (fs & -> & _). discriminate.
    + by destruct (Hnp (reflect.Type_ field)).
    + unfold visible in Hv. apply andb_true_iff in Hv as [Hx Hj].
      apply negb_true_iff in Hj. unfold structToSchema_field.
      rewrite Hx, Hj, E. discriminate.
  - rewrite structToSchema_field_skip by done. discriminate.
Qed.

Lemma typeToSchema_no_panic (fuel : nat) :
  forall t, typeToSchema fuel t <> Panic.
Proof.
  induction fuel as [|fuel IH]; intros t; [discriminate|].
  rewrite typeToSchema_S.
  unfold structToSchema, arrayToSchema, mapToSchema, structToSchema_with,
    arrayToSchema_with, mapToSchema_with.
  destruct (reflect.kind (rtypes t)); try discriminate.
  - specialize (IH (reflect.Elem (rtypes t))).
    by destruct (typeToSchema fuel (reflect.Elem (rtypes t))).
  - specialize (IH (reflect.Elem (rtypes t))).
    by destruct (typeToSchema fuel (reflect.Elem (rtypes t))).
  - specialize (IH (reflect.Elem (rtypes t))).
    by destruct (typeToSchema fuel (reflect.Elem (rtypes t))).
  - assert (H : forall l st,
              foldM (structToSchema_field (typeToSchema fuel)) l st <> Panic).
    { induction l as [|f l IHl]; intros st; [discriminate|]. cbn [foldM].
      pose proof (structToSchema_field_no_panic (typeToSchema fuel) st f IH
                    (typeToSchema_has_type fuel)) as Hf.
      destruct (structToSchema_field (typeToSchema fuel) st f); try done.
      apply IHl. }
    specialize (H (reflect.Fields (rtypes t)) (∅, [])).
    by destruct (foldM _ _ _) as [[props req]| |].
Qed.

Lemma reflectToJSONSchema_no_panic (fuel : nat) (v : any) :
  reflectToJSONSchema fuel v <> Panic.
Proof.
  destruct v as [| |t]; simpl; try discriminate.
  assert (H : forall n t0, deref n t0 <> Panic).
  { induction n as [|n IHn]; intros t0; simpl; [discriminate|].
    destruct (reflect.kind (rtypes t0)); try discriminate. apply IHn. }
  specialize (H fuel t). destruct (deref fuel t); simpl; try done.
  apply typeToSchema_no_panic.
Qed.

(** C2, amended. For every value whose type walk is finite (its pointer
    chain ends and the walk below it is well founded), the reflector
    returns a schema, the same one for every larger recursion budget, and
    never panics; a type of an unknown or unsupported kind yields the
    placeholder [{"type": "object"}]. *)
Theorem reflectToJSONSchema_total_on_finite_walk (v : any) :
  finite_walk v ->
  (exists fuel s, forall fuel', fuel <= fuel' ->
     reflectToJSONSchema fuel' v = Ret s)
  /\ (forall fuel, reflectToJSONSchema fuel v <> Panic)
  /\ (forall t fuel, supported (reflect.kind (rtypes t)) = false ->
        typeToSchema (S fuel) t = Ret (type_only "object")).
Proof.
  intros Hv.
  split; [|split; [intros fuel; apply reflectToJSONSchema_no_panic
                  |intros t fuel; apply typeToSchema_unsupported]].
  destruct v as [| |t]; simpl in *.
  - exists 0. eexists. reflexivity.
  - exists 0. eexists. reflexivity.
  - destruct Hv as (n & t' & Hd & Hacc).
    destruct (typeToSchema_total t' Hacc) as (m & s & Hs).
    exists (max n m), s. intros fuel' Hle.
    rewrite (deref_le _ _ _ _ Hd) by lia. simpl.
    eapply typeToSchema_le; [exact Hs|lia].
Qed.



(** C7, at the failing input. [Sscanf] with ["%d"] stops at the first
    byte that is not a digit and reports no error for the rest: the
    integer parse of ["1.5"] succeeds with 1, and the float parse is
    never tried. *)
Theorem parseNumber_1_5_is_the_integer_1 : parseNumber "1.5" = VInt 1.
Proof. reflexivity. Qed.

(** The float parse is reached only where the integer parse fails, e.g.
    on a leading period; a string that neither parse accepts is kept. *)
Lemma parseNumber_fallbacks (s : string) :
  parseIntHelper s = None ->
  parseNumber s = match parseFloatHelper s with
                  | Some f => VFloat f
                  | None => VString s
                  end.
Proof. unfold parseNumber. by intros ->. Qed.

Lemma parseNumber_abc :
  convertFloat EmptyString = None -> parseNumber "abc" = VString "abc".
Proof.
  intros H. unfold parseNumber.
  change (parseIntHelper "abc") with (@None Z).
  change (parseFloatHelper "abc") with (convertFloat EmptyString).
  by rewrite H.
Qed.

(** ** The status phrases *)




(** ** The document assembler *)

Lemma endpointToOperation_response_spec (fuel : nat)
    (responses responses' : gmap string Response.t) (code : Z) (v : any) :
  endpointToOperation_response fuel responses (code, v) = Ret responses' ->
  exists schema : Schema,
    responses' = <[http.StatusText code := response_of code v schema]> responses
    /\ (forall t, v = val t -> reflectToJSONSchema fuel v = Ret schema).
Proof.
  unfold endpointToOperation_response, response_of. destruct v as [|desc|t].
  - intros H. injection H as <-. exists ∅. split; [done|]. intros t; discriminate.
  - intros H. injection H as <-. exists ∅. split; [done|]. intros t; discriminate.
  - intros H. apply bind_Ret_inv in H as (resp & H1 & H2).
    apply bind_Ret_inv in H1 as (schema & H1 & H3).
    injection H2 as <-. injection H3 as <-. exists schema. split; [done|].
    intros t' _. exact H1.
Qed.



(** [endpointToOperation] leaves the schema accumulator as it found it,
    and its responses are those of the response loop. *)
Lemma endpointToOperation_inv (fuel : nat) (endpoint : EndpointConfig.t)
    (schemas schemas' : gmap string (gmap string JValue)) (op : Operation.t) :
  endpointToOperation fuel endpoint schemas = Ret (op, schemas') ->
  schemas' = schemas
  /\ foldM (endpointToOperation_response fuel)
           (EndpointConfig.Responses endpoint) ∅
     = Ret (Operation.Responses op).
Proof.
  unfold endpointToOperation. intros H.
  apply bind_Ret_inv in H as (body & _ & H).
  apply bind_Ret_inv in H as (responses & Hr & H).
  injection H as <- <-. done.
Qed.

(** The operation does not depend on the accumulator it is handed. *)
Lemma endpointToOperation_schemas (fuel : nat) (endpoint : EndpointConfig.t)
    (s1 s2 : gmap string (gmap string JValue)) :
  endpointToOperation fuel endpoint s2
  = (r ← endpointToOperation fuel endpoint s1; Ret (r.1, s2)).
Proof.
  unfold endpointToOperation.
  destruct (match EndpointConfig.RequestBody endpoint with
            | nil => _ | _ => _ end); simpl; try done.
  destruct (foldM _ _ _); simpl; done.
Qed.


Lemma assign_method_unrecognized (method : string) (op : Operation.t)
    (pathItem : PathItem.t) :
  recognized_method method = false -> assign_method method op pathItem = pathItem.
Proof.
  unfold recognized_method, assign_method. simpl. intros H.
  repeat (apply orb_false_elim in H; destruct H as [?E H]).
  repeat match goal with
  | E : String.eqb _ _ = false |- _ => rewrite E; clear E
  end.
  done.
Qed.

Lemma GenerateOpenAPI_endpoint_spec (fuel : nat) (d d1 : OpenAPISpec.t)
    (e : EndpointConfig.t) :
  GenerateOpenAPI_endpoint fuel d e = Ret d1 ->
  exists op : Operation.t,
    endpointToOperation fuel e
      (OpenAPIComponents.Schemas (OpenAPISpec.Components d))
    = Ret (op, OpenAPIComponents.Schemas (OpenAPISpec.Components d))
    /\ OpenAPISpec.OpenAPI d1 = OpenAPISpec.OpenAPI d
    /\ OpenAPISpec.Info d1 = OpenAPISpec.Info d
    /\ OpenAPISpec.Servers d1 = OpenAPISpec.Servers d
    /\ OpenAPISpec.Components d1 = OpenAPISpec.Components d
    /\ OpenAPISpec.Paths d1
       = <[EndpointConfig.Path e :=
             assign_method (EndpointConfig.Method e) op
                           (path_item d (EndpointConfig.Path e))]>
           (OpenAPISpec.Paths d).
Proof.
  unfold GenerateOpenAPI_endpoint. intros H.
  apply bind_Ret_inv in H as ([op schemas] & Hop & H).
  pose proof (endpointToOperation_inv _ _ _ _ _ Hop) as [-> _].
  injection H as <-. exists op. simpl.
  repeat (split; [done|]). split; [|done].
  by destruct (OpenAPISpec.Components d).
Qed.





(** C9. With no endpoint registered, both generators return, for every
    recursion budget: the OpenAPI document has no paths and exactly the
    two security schemes ["mTLS"] (mutual TLS) and ["Bearer"] (an HTTP
    bearer token, a JWT), and the API description has no endpoints. *)
Theorem empty_registry_documents (fuel : nat) (registry : EndpointRegistry.t) :
  EndpointRegistry.endpoints registry = [] ->
  exists (doc : OpenAPISpec.t) (desc : APIDescription.t),
    GenerateOpenAPI fuel registry = Ret doc
    /\ GenerateAPIDescription fuel registry = Ret desc
    /\ OpenAPISpec.OpenAPI doc = "3.0.0"
    /\ OpenAPISpec.Paths doc = ∅
    /\ (let schemes := OpenAPIComponents.SecuritySchemes (OpenAPISpec.Components doc) in
        size schemes = 2
        /\ schemes !! "mTLS"
           = Some {| SecurityScheme.Type_ := "mutualTLS";
                     SecurityScheme.Scheme := "";
                     SecurityScheme.Description :=
                       "Mutual TLS authentication with client certificates" |}
        /\ schemes !! "Bearer"
           = Some {| SecurityScheme.Type_ := "http";
                     SecurityScheme.Scheme := "bearer";
                     SecurityScheme.Description :=
                       "JWT Bearer token authentication (ADR-031: OAuth2 scopes validated against AuthorizationElements)" |})
    /\ APIDescription.Endpoints desc = [].
Proof.
  intros H. unfold GenerateOpenAPI, GenerateAPIDescription. rewrite H.
  do 2 eexists. cbn [foldM mbind Res_bind].
  split; [reflexivity|]. split; [reflexivity|].
  cbn [OpenAPISpec.OpenAPI OpenAPISpec.Paths OpenAPISpec.Components
       GenerateOpenAPI_init OpenAPIComponents.SecuritySchemes
       APIDescription.Endpoints].
  cbv zeta. repeat split.
Qed.

(** C10. The document that [GenerateOpenAPI] returns has no entry in
    [components.schemas]: [endpointToOperation] returns the accumulator it
    was handed, whatever the endpoint. *)
Theorem GenerateOpenAPI_schemas_empty (fuel : nat)
    (registry : EndpointRegistry.t) (doc : OpenAPISpec.t) :
  GenerateOpenAPI fuel registry = Ret doc ->
  OpenAPIComponents.Schemas (OpenAPISpec.Components doc) = ∅
  /\ (forall endpoint schemas op schemas',
        endpointToOperation fuel endpoint schemas = Ret (op, schemas') ->
        schemas' = schemas).
Proof.
  intros H. split.
  - unfold GenerateOpenAPI in H.
    assert (Hinit : OpenAPIComponents.Schemas
              (OpenAPISpec.Components (GenerateOpenAPI_init registry)) = ∅)
      by reflexivity.
    revert H Hinit. generalize (GenerateOpenAPI_init registry).
    induction (EndpointRegistry.endpoints registry) as [|e l IH]; intros d H Hd.
    + by injection H as <-.
    + cbn [foldM] in H. apply bind_Ret_inv in H as (d1 & H1 & H2).
      apply (IH _ H2).
      apply GenerateOpenAPI_endpoint_spec in H1 as (op & _ & _ & _ & _ & -> & _).
      exact Hd.
  - intros endpoint schemas op schemas' Hop.
    by apply endpointToOperation_inv in Hop as [-> _].
Qed.

(** * Further properties of the reflector *)

Lemma deref_not_Ptr (n : nat) :
  forall t t', deref n t = Ret t' -> reflect.kind (rtypes t') <> reflect.Ptr.
Proof.
  induction n as [|n IH]; intros t t' H; [discriminate|]. simpl in H.
  destruct (reflect.kind (rtypes t)) eqn:K;
    try (injection H as <-; rewrite K; discriminate).
  by eapply IH.
Qed.

(** X1. [reflectToJSONSchema] follows a pointer chain of any length: the
    schema of a value is the schema of the first type on the chain that
    is not a pointer. *)
Theorem reflectToJSONSchema_follows_pointers (n fuel : nat)
    (t t' : reflect.TypeId) :
  deref n t = Ret t' -> n <= fuel ->
  reflectToJSONSchema fuel (val t) = typeToSchema fuel t'
  /\ reflect.kind (rtypes t') <> reflect.Ptr.
Proof.
  intros H Hle. split; [|by eapply deref_not_Ptr].
  simpl. by rewrite (deref_le _ _ _ _ H Hle).
Qed.

(** X2. [typeToSchema] returns a schema for some recursion budget exactly
    when the type walk from the type ends. *)
Theorem typeToSchema_returns_iff_walk_ends (t : reflect.TypeId) :
  (exists fuel s, typeToSchema fuel t = Ret s) <-> Acc walk t.
Proof.
  split.
  - intros (fuel & s & H). by eapply typeToSchema_Ret_Acc.
  - apply typeToSchema_total.
Qed.



Lemma Split_hd (s : string) (sep : ascii) :
  exists rest,
    s = (hd EmptyString (strings.Split s sep) ++ rest)%string
    /\ (rest = EmptyString \/ exists r, rest = String sep r)
    /\ ~ In sep (list_ascii_of_string (hd EmptyString (strings.Split s sep))).
Proof.
  induction s as [|c s (rest & Hs & Hrest & Hno)]; simpl.
  - exists EmptyString. auto.
  - destruct (Ascii.eqb_spec c sep) as [->|Hc]; simpl.
    + exists (String sep s). split; [done|]. split; [eauto|]. tauto.
    + destruct (strings.Split s sep) as [|w ws]; simpl in *.
      * exists s. split; [done|]. split; [|intros [?|[]]; congruence].
        rewrite Hs. done.
      * exists rest. split; [by rewrite Hs at 1|]. split; [done|].
        intros [?|?]; [congruence|done].
Qed.

(** X4. The serialization name of a field is its [json] tag up to the
    first comma: it holds no comma, and the tag continues after it with a
    comma or ends. A tag that begins with a comma gives the empty name. *)
Theorem field_name_is_tag_before_comma (field : reflect.StructField) :
  let jsonTag := reflect.Get (reflect.Tag field) "json" in
  (exists rest,
     jsonTag = (field_name field ++ rest)%string
     /\ (rest = EmptyString \/ exists r, rest = String ","%char r))
  /\ ~ In ","%char (list_ascii_of_string (field_name field))
  /\ (forall r, jsonTag = String ","%char r -> field_name field = EmptyString).
Proof.
  intros jsonTag. unfold field_name. fold jsonTag.
  destruct (Split_hd jsonTag ","%char) as (rest & H1 & H2 & H3).
  split; [eauto|]. split; [done|].
  intros r ->. reflexivity.
Qed.

Lemma part_value_key_in (typ part k : string) (v : JValue) :
  part_value typ part = Some (k, v) -> In k annotation_keys.
Proof.
  unfold part_value. intros H.
  destruct (String.eqb (strings.TrimSpace part) "required"); [discriminate|].
  destruct (strings.SplitN2 _ _) as [|a [|b [|c l]]]; try discriminate.
  repeat match type of H with
  | (if ?c then _ else _) = _ => destruct c
  end; try discriminate; injection H as <- _; simpl; tauto.
Qed.

Lemma parseOpenAPITag_part_Ret (fieldName part : string)
    (schema schema' : Schema) (required required' : list string) :
  parseOpenAPITag_part fieldName (schema, required) part
  = Ret (schema', required') ->
  (schema' = schema \/ exists k v, In k annotation_keys /\ schema' = <[k := v]> schema)
  /\ (required' = required \/ required' = required ++ [fieldName]).
Proof.
  unfold parseOpenAPITag_part.
  destruct (String.eqb (strings.TrimSpace part) "required");
    [intros [= <- <-]; auto|].
  destruct (strings.SplitN2 _ _) as [|a [|b [|c l]]];
    try (intros [= <- <-]; auto).
  repeat match goal with
  | |- (if ?c then _ else _) = _ -> _ => destruct c
  end;
  try (intros [= <- <-]; split; [|auto]; first [by left | right; do 2 eexists;
       split; [|reflexivity]; simpl; tauto]).
  - destruct (assert_string _); try discriminate. simpl.
    intros [= <- <-]. split; [|auto]. right. do 2 eexists.
    split; [|reflexivity]. simpl; tauto.
  - destruct (assert_string _); try discriminate. simpl.
    intros [= <- <-]. split; [|auto]. right. do 2 eexists.
    split; [|reflexivity]. simpl; tauto.
Qed.

(** X5. Whatever the annotation string and the schema, when
    [parseOpenAPITag] returns it has only assigned annotation keys: every
    other key of the schema (["type"], ["items"], ["properties"], ...)
    holds what it held, no key is removed, and the required list has only
    grown by copies of the field name. *)
Theorem parseOpenAPITag_assigns_only_annotation_keys
    (tag fieldName : string) (schema schema' : Schema)
    (required required' : list string) :
  parseOpenAPITag tag schema required fieldName = Ret (schema', required') ->
  (forall k, ~ In k annotation_keys -> schema' !! k = schema !! k)
  /\ (forall k, is_Some (schema !! k) -> is_Some (schema' !! k))
  /\ (exists n, required' = required ++ replicate n fieldName).
Proof.
  unfold parseOpenAPITag. generalize (strings.Split tag ","%char). intros parts.
  revert schema required. induction parts as [|p parts IH]; intros schema required H.
  - injection H as <- <-. split; [done|]. split; [done|]. exists 0.
    by rewrite app_nil_r.
  - cbn [foldM] in H. apply bind_Ret_inv in H as ([s1 r1] & H1 & H2).
    apply parseOpenAPITag_part_Ret in H1 as [Hs Hr].
    destruct (IH _ _ H2) as (IH1 & IH2 & (n & IH3)).
    split; [|split].
    + intros k Hk. rewrite (IH1 k Hk).
      destruct Hs as [->|(k' & v & Hin & ->)]; [done|].
      apply lookup_insert_ne. by intros ->.
    + intros k Hk. apply IH2.
      destruct Hs as [->|(k' & v & Hin & ->)]; [done|].
      destruct (decide (k' = k)) as [->|Hne].
      * rewrite lookup_insert_eq. eauto.
      * by rewrite lookup_insert_ne.
    + destruct Hr as [->| ->]; [by exists n|].
      exists (S n). rewrite IH3, <- app_assoc. done.
Qed.



(** ** The schema of a field *)

Lemma type_of_spec (schema : Schema) (typ : string) :
  schema !! "type" = Some (VString typ) -> type_of schema = typ.
Proof. unfold type_of. by intros ->. Qed.

(** One turn of the field loop on a visible field, exactly. *)
Lemma structToSchema_field_exact (rec : reflect.TypeId -> Res Schema)
    (props : gmap string JValue) (req : list string)
    (field : reflect.StructField) (base : Schema) (typ : string) :
  visible field = true ->
  rec (reflect.Type_ field) = Ret base ->
  base !! "type" = Some (VString typ) ->
  structToSchema_field rec (props, req) field
  = Ret (<[field_name field := VMap (annotate field base)]> props,
         req ++ replicate (required_count (openapi_tag field)) (field_name field)).
Proof.
  unfold visible, structToSchema_field, annotate. intros Hv Hrec Hty.
  apply andb_true_iff in Hv as [-> Hv]. apply negb_true_iff in Hv.
  rewrite Hv, Hrec. cbn [negb mbind Res_bind].
  fold (openapi_tag field) (field_name field).
  rewrite (type_of_spec _ _ Hty).
  destruct (String.eqb (openapi_tag field) "") eqn:Etag.
  - apply String.eqb_eq in Etag. rewrite Etag.
    change (required_count "") with 0%nat. simpl replicate. rewrite app_nil_r.
    reflexivity.
  - rewrite (parseOpenAPITag_spec _ _ typ) by done. reflexivity.
Qed.

Lemma structToSchema_field_Ret (rec : reflect.TypeId -> Res Schema)
    (props : gmap string JValue) (req : list string)
    (field : reflect.StructField) (st' : gmap string JValue * list string) :
  (forall t s, rec t = Ret s -> exists typ, s !! "type" = Some (VString typ)) ->
  structToSchema_field rec (props, req) field = Ret st' ->
  (visible field = false /\ st' = (props, req))
  \/ (visible field = true /\
      exists base, rec (reflect.Type_ field) = Ret base
        /\ st' = (<[field_name field := VMap (annotate field base)]> props,
                  req ++ replicate (required_count (openapi_tag field))
                                   (field_name field))).
Proof.
  intros Hty H. destruct (visible field) eqn:Hv.
  - right. split; [done|].
    destruct (structToSchema_field_inv _ _ _ _ H Hv) as [base Hb].
    destruct (Hty _ _ Hb) as [typ Ht].
    rewrite (structToSchema_field_exact _ _ _ _ base typ Hv Hb Ht) in H.
    injection H as <-. eauto.
  - left. rewrite structToSchema_field_skip in H by done.
    by injection H as <-.
Qed.

(** The field loop leaves a property alone that no later visible field
    is named after. *)
Lemma structToSchema_fields_other (rec : reflect.TypeId -> Res Schema)
    (fields : list reflect.StructField) (name : string) :
  (forall t s, rec t = Ret s -> exists typ, s !! "type" = Some (VString typ)) ->
  forall props req st',
  foldM (structToSchema_field rec) fields (props, req) = Ret st' ->
  (forall g, In g fields -> visible g = true -> field_name g <> name) ->
  st'.1 !! name = props !! name.
Proof.
  intros Hty. induction fields as [|f fields IH]; intros props req st' H Hn.
  - by injection H as <-.
  - cbn [foldM] in H. apply bind_Ret_inv in H as ([p1 r1] & H1 & H2).
    rewrite (IH _ _ _ H2) by (intros g Hg; apply Hn; by right).
    apply structToSchema_field_Ret in H1 as [[_ [= -> ->]]|[Hv (base & _ & [= -> ->])]];
      [done| |done].
    apply lookup_insert_ne. apply Hn; [by left|done].
Qed.

Lemma structToSchema_property_last (fuel : nat) (t : reflect.TypeId)
    (s : Schema) (l1 l2 : list reflect.StructField) (field : reflect.StructField) :
  reflect.kind (rtypes t) = reflect.Struct ->
  reflect.Fields (rtypes t) = l1 ++ field :: l2 ->
  visible field = true ->
  (forall g, In g l2 -> visible g = true -> field_name g <> field_name field) ->
  typeToSchema (S fuel) t = Ret s ->
  exists (props : gmap string JValue) (base : Schema),
    s !! "properties" = Some (VMap props)
    /\ typeToSchema fuel (reflect.Type_ field) = Ret base
    /\ props !! field_name field = Some (VMap (annotate field base)).
Proof.
  intros K Hf Hv Hlast H. rewrite typeToSchema_S, K in H.
  unfold structToSchema, structToSchema_with in H.
  apply bind_Ret_inv in H as ([props req] & Hloop & H). injection H as <-.
  rewrite Hf, foldM_app in Hloop.
  apply bind_Ret_inv in Hloop as ([p1 r1] & _ & Hloop). cbn [foldM] in Hloop.
  apply bind_Ret_inv in Hloop as ([p2 r2] & Hstep & Hloop).
  apply structToSchema_field_Ret in Hstep
    as [[Hv' _]|[_ (base & Hb & [= -> ->])]];
    [congruence| |apply typeToSchema_has_type].
  exists props, base. split; [|split; [done|]].
  - destruct (0 <? length req)%nat;
      rewrite ?(lookup_insert_ne _ "required") by done; apply lookup_insert_eq.
  - change props with ((props, req).1).
    rewrite (structToSchema_fields_other _ _ _ (typeToSchema_has_type fuel)
               _ _ _ Hloop Hlast).
    apply lookup_insert_eq.
Qed.


(** X8. A non-empty [doc] tag takes precedence over a [description=]
    token of the [openapi] tag: the property of the field (the last of
    its name) has the [doc] text as its description. *)
Theorem doc_tag_overrides_description (fuel : nat) (t : reflect.TypeId)
    (s : Schema) (l1 l2 : list reflect.StructField) (field : reflect.StructField) :
  reflect.kind (rtypes t) = reflect.Struct ->
  reflect.Fields (rtypes t) = l1 ++ field :: l2 ->
  visible field = true ->
  (forall g, In g l2 -> visible g = true -> field_name g <> field_name field) ->
  reflect.Get (reflect.Tag field) "doc" <> "" ->
  typeToSchema (S fuel) t = Ret s ->
  exists (props : gmap string JValue) (fieldSchema : Schema),
    s !! "properties" = Some (VMap props)
    /\ props !! field_name field = Some (VMap fieldSchema)
    /\ fieldSchema !! "description"
       = Some (VString (reflect.Get (reflect.Tag field) "doc")).
Proof.
  intros K Hf Hv Hlast Hdoc H.
  destruct (structToSchema_property_last _ _ _ _ _ _ K Hf Hv Hlast H)
    as (props & base & Hp & _ & Hfield).
  exists props, (annotate field base). split; [done|]. split; [done|].
  unfold annotate. apply String.eqb_neq in Hdoc. rewrite Hdoc.
  apply lookup_insert_eq.
Qed.


(** ** The shape of the schemas *)

Lemma schema_ok_has_type (s : Schema) :
  schema_ok s -> exists typ, s !! "type" = Some (VString typ).
Proof. intros [ ]; eauto. Qed.

Lemma schema_ok_type_only (typ : string) :
  In typ ["string"; "integer"; "number"; "boolean"; "object"] ->
  schema_ok (type_only typ).
Proof.
  intros H. apply (ok_plain _ typ); [apply type_only_type|done|..];
    unfold type_only; by apply lookup_singleton_ne.
Qed.

Lemma schema_ok_insert (k : string) (v : JValue) (s : Schema) :
  ~ In k ["type"; "items"; "properties"; "additionalProperties"] ->
  schema_ok s -> schema_ok (<[k := v]> s).
Proof.
  intros Hk Hs.
  assert (forall k', In k' ["type"; "items"; "properties"; "additionalProperties"] ->
            <[k := v]> s !! k' = s !! k') as Hl.
  { intros k' Hk'. apply lookup_insert_ne. by intros ->. }
  destruct Hs as [s typ H1 H2 H3 H4 H5|s items H1 H2 H3 H4 H5
                 |s additional H1 H2 H3 H4 H5|s props H1 H2 H3 H4 H5].
  - apply (ok_plain _ typ); rewrite ?Hl by (simpl; tauto); done.
  - apply (ok_array _ items); rewrite ?Hl by (simpl; tauto); done.
  - apply (ok_map _ additional); rewrite ?Hl by (simpl; tauto); done.
  - apply (ok_struct _ props); rewrite ?Hl by (simpl; tauto); done.
Qed.

Lemma annotation_key_not_structural (k : string) :
  In k annotation_keys ->
  ~ In k ["type"; "items"; "properties"; "additionalProperties"].
Proof.
  unfold annotation_keys. simpl. intros H1 H2.
  repeat (destruct H1 as [<-|H1]; [repeat (destruct H2 as [H2|H2]; try done)|]).
  done.
Qed.

Lemma apply_parts_ok (typ : string) (parts : list string) :
  forall schema : Schema, schema_ok schema -> schema_ok (apply_parts typ parts schema).
Proof.
  induction parts as [|p parts IH]; intros schema H; [done|].
  change (apply_parts typ (p :: parts) schema)
    with (apply_parts typ parts (apply_part typ schema p)).
  apply IH. unfold apply_part.
  destruct (part_value typ p) as [[k v]|] eqn:E; [|done].
  apply schema_ok_insert; [|done].
  apply annotation_key_not_structural. by apply (part_value_key_in typ p k v).
Qed.

Lemma annotate_ok (field : reflect.StructField) (base : Schema) :
  schema_ok base -> schema_ok (annotate field base).
Proof.
  intros H. unfold annotate.
  assert (schema_ok (if String.eqb (openapi_tag field) "" then base
                     else apply_parts (type_of base)
                            (strings.Split (openapi_tag field) ","%char) base)) as Ha.
  { destruct (String.eqb _ _); [done|]. by apply apply_parts_ok. }
  destruct (String.eqb (reflect.Get (reflect.Tag field) "doc") ""); [done|].
  apply schema_ok_insert; [|done]. simpl. intros [?|[?|[?|[?|[]]]]]; done.
Qed.

Lemma structToSchema_fields_ok (rec : reflect.TypeId -> Res Schema)
    (fields : list reflect.StructField) :
  (forall t s, rec t = Ret s -> schema_ok s) ->
  forall props req st',
  foldM (structToSchema_field rec) fields (props, req) = Ret st' ->
  (forall name v, props !! name = Some v ->
     exists fieldSchema, v = VMap fieldSchema /\ schema_ok fieldSchema) ->
  forall name v, st'.1 !! name = Some v ->
    exists fieldSchema, v = VMap fieldSchema /\ schema_ok fieldSchema.
Proof.
  intros Hrec. induction fields as [|f fields IH]; intros props req st' H Hp.
  - by injection H as <-.
  - cbn [foldM] in H. apply bind_Ret_inv in H as ([p1 r1] & H1 & H2).
    apply (IH _ _ _ H2).
    apply structToSchema_field_Ret in H1
      as [[_ [= -> ->]]|[Hv (base & Hb & [= -> ->])]]; [done| |].
    + intros name v. destruct (decide (field_name f = name)) as [<-|Hne].
      * rewrite lookup_insert_eq. intros [= <-]. eexists. split; [done|].
        apply annotate_ok. by apply (Hrec _ _ Hb).
      * rewrite lookup_insert_ne by done. apply Hp.
    + intros t s Hs. apply schema_ok_has_type. by apply (Hrec t).
Qed.

Lemma typeToSchema_ok (fuel : nat) :
  forall (t : reflect.TypeId) (s : Schema),
  typeToSchema fuel t = Ret s -> schema_ok s.
Proof.
  induction fuel as [|fuel IH]; intros t s; [discriminate|].
  rewrite typeToSchema_S.
  unfold structToSchema, arrayToSchema, mapToSchema, structToSchema_with,
    arrayToSchema_with, mapToSchema_with.
  destruct (reflect.kind (rtypes t)); intros H;
    try (injection H as <-; apply schema_ok_type_only; simpl; tauto).
  - apply bind_Ret_inv in H as (items & Hi & H). injection H as <-.
    apply (ok_array _ items); [|apply lookup_insert_eq|by apply (IH _ _ Hi)|..];
      rewrite lookup_insert_ne by done;
      [apply type_only_type|by apply lookup_singleton_ne..].
  - apply bind_Ret_inv in H as (additional & Hi & H). injection H as <-.
    apply (ok_map _ additional);
      [|apply lookup_insert_eq|by apply (IH _ _ Hi)|..];
      rewrite lookup_insert_ne by done;
      [apply type_only_type|by apply lookup_singleton_ne..].
  - apply bind_Ret_inv in H as (items & Hi & H). injection H as <-.
    apply (ok_array _ items); [|apply lookup_insert_eq|by apply (IH _ _ Hi)|..];
      rewrite lookup_insert_ne by done;
      [apply type_only_type|by apply lookup_singleton_ne..].
  - apply bind_Ret_inv in H as ([props req] & Hloop & H). injection H as <-.
    pose proof (structToSchema_fields_ok _ _ IH _ _ _ Hloop) as Hprops.
    apply (ok_struct _ props).
    + destruct (0 <? length req)%nat;
        rewrite ?lookup_insert_ne by done; apply type_only_type.
    + destruct (0 <? length req)%nat;
        rewrite ?(lookup_insert_ne _ "required") by done; apply lookup_insert_eq.
    + apply Hprops. intros name v. by rewrite lookup_empty.
    + destruct (0 <? length req)%nat;
        rewrite ?lookup_insert_ne by done; by apply lookup_singleton_ne.
    + destruct (0 <? length req)%nat;
        rewrite ?lookup_insert_ne by done; by apply lookup_singleton_ne.
Qed.

(** X9. Every schema that [typeToSchema] returns is well formed, at every
    depth: its ["type"] is one of the six type names; an array schema
    has a well-formed schema under ["items"], a map schema under
    ["additionalProperties"], a record schema a well-formed schema under
    every name of ["properties"]; and no schema has one of these three
    keys without being of that sort. Annotations do not disturb this. *)
Theorem typeToSchema_schema_ok (fuel : nat) (t : reflect.TypeId) (s : Schema) :
  typeToSchema fuel t = Ret s -> schema_ok s.
Proof. apply typeToSchema_ok. Qed.


(** * Further properties of the document assembler *)

Ltac eqb_cases m :=
  repeat match goal with
  | |- context [String.eqb m ?c] =>
      let F := fresh "F" in
      destruct (String.eqb m c) eqn:F;
      [apply String.eqb_eq in F|]; cbv beta iota
  end.

Lemma slot_zero (m : string) : slot m PathItem.zero = None.
Proof. unfold slot. eqb_cases m; reflexivity. Qed.

Lemma slot_assign_same (m : string) (op : Operation.t) (pathItem : PathItem.t) :
  recognized_method m = true -> slot m (assign_method m op pathItem) = Some op.
Proof.
  unfold recognized_method, slot, assign_method. cbn [existsb].
  eqb_cases m; try reflexivity. discriminate.
Qed.

Lemma slot_assign_other (m m' : string) (op : Operation.t) (pathItem : PathItem.t) :
  m <> m' -> slot m (assign_method m' op pathItem) = slot m pathItem.
Proof.
  intros Hne. unfold slot, assign_method.
  eqb_cases m'; eqb_cases m; try reflexivity; congruence.
Qed.

Lemma path_item_insert_eq (d d1 : OpenAPISpec.t) (p : string) (pathItem : PathItem.t) :
  OpenAPISpec.Paths d1 = <[p := pathItem]> (OpenAPISpec.Paths d) ->
  path_item d1 p = pathItem.
Proof. unfold path_item. intros ->. by rewrite lookup_insert_eq. Qed.

Lemma path_item_insert_ne (d d1 : OpenAPISpec.t) (p q : string) (pathItem : PathItem.t) :
  OpenAPISpec.Paths d1 = <[p := pathItem]> (OpenAPISpec.Paths d) ->
  p <> q -> path_item d1 q = path_item d q.
Proof. unfold path_item. intros -> Hne. by rewrite lookup_insert_ne. Qed.

(** The endpoint loop keeps the envelope and adds the paths it meets. *)
Lemma GenerateOpenAPI_loop_envelope (fuel : nat) (l : list EndpointConfig.t) :
  forall d doc : OpenAPISpec.t,
  foldM (GenerateOpenAPI_endpoint fuel) l d = Ret doc ->
  OpenAPISpec.OpenAPI doc = OpenAPISpec.OpenAPI d
  /\ OpenAPISpec.Info doc = OpenAPISpec.Info d
  /\ OpenAPISpec.Servers doc = OpenAPISpec.Servers d
  /\ OpenAPISpec.Components doc = OpenAPISpec.Components d
  /\ dom (OpenAPISpec.Paths doc)
     = dom (OpenAPISpec.Paths d) ∪ list_to_set (map EndpointConfig.Path l).
Proof.
  induction l as [|e l IH]; intros d doc H.
  - injection H as <-. repeat (split; [done|]). set_solver.
  - cbn [foldM] in H. apply bind_Ret_inv in H as (d1 & H1 & H2).
    apply GenerateOpenAPI_endpoint_spec in H1
      as (op & _ & E1 & E2 & E3 & E4 & E5).
    destruct (IH _ _ H2) as (I1 & I2 & I3 & I4 & I5).
    rewrite I1, I2, I3, I4, I5, E1, E2, E3, E4, E5.
    repeat (split; [done|]). rewrite dom_insert_L. set_solver.
Qed.

(** The endpoint loop leaves a slot alone that none of its endpoints is
    registered for. *)
Lemma GenerateOpenAPI_loop_slot_other (fuel : nat) (l : list EndpointConfig.t)
    (p m : string) :
  forall d doc : OpenAPISpec.t,
  foldM (GenerateOpenAPI_endpoint fuel) l d = Ret doc ->
  (forall e, In e l ->
     EndpointConfig.Path e = p -> EndpointConfig.Method e = m -> False) ->
  slot m (path_item doc p) = slot m (path_item d p).
Proof.
  induction l as [|e l IH]; intros d doc H Hl.
  - by injection H as <-.
  - cbn [foldM] in H. apply bind_Ret_inv in H as (d1 & H1 & H2).
    rewrite (IH _ _ H2) by (intros e' He'; apply Hl; by right).
    apply GenerateOpenAPI_endpoint_spec in H1 as (op & _ & _ & _ & _ & _ & E5).
    destruct (decide (EndpointConfig.Path e = p)) as [Hp|Hp].
    + subst p. rewrite (path_item_insert_eq _ _ _ _ E5).
      apply slot_assign_other. intros Hm. by apply (Hl e (or_introl eq_refl)).
    + by rewrite (path_item_insert_ne _ _ _ _ _ E5 Hp).
Qed.

(** Every operation in a slot after the loop was there before it, or is
    the operation of one of the endpoints of the loop. *)
Lemma GenerateOpenAPI_loop_slot_inv (fuel : nat) (l : list EndpointConfig.t)
    (p m : string) (op : Operation.t) :
  forall d doc : OpenAPISpec.t,
  foldM (GenerateOpenAPI_endpoint fuel) l d = Ret doc ->
  slot m (path_item doc p) = Some op ->
  slot m (path_item d p) = Some op
  \/ exists e, In e l /\ EndpointConfig.Path e = p /\ EndpointConfig.Method e = m
       /\ endpointToOperation fuel e
            (OpenAPIComponents.Schemas (OpenAPISpec.Components d))
          = Ret (op, OpenAPIComponents.Schemas (OpenAPISpec.Components d)).
Proof.
  induction l as [|e l IH]; intros d doc H Hop.
  - injection H as <-. by left.
  - cbn [foldM] in H. apply bind_Ret_inv in H as (d1 & H1 & H2).
    apply GenerateOpenAPI_endpoint_spec in H1 as (op1 & Hop1 & _ & _ & _ & E4 & E5).
    destruct (IH _ _ H2 Hop) as [Hd1|(e' & He' & Hp' & Hm' & Hop')].
    + destruct (decide (EndpointConfig.Path e = p)) as [Hp|Hp].
      * subst p. rewrite (path_item_insert_eq _ _ _ _ E5) in Hd1.
        destruct (decide (EndpointConfig.Method e = m)) as [Hm|Hm].
        -- subst m.
           destruct (bool_dec (recognized_method (EndpointConfig.Method e)) true)
             as [R|R]; [|apply not_true_is_false in R].
           ++ rewrite slot_assign_same in Hd1 by done. injection Hd1 as ->.
              right. exists e. split; [by left|]. done.
           ++ rewrite assign_method_unrecognized in Hd1 by done. by left.
        -- rewrite slot_assign_other in Hd1 by done. by left.
      * rewrite (path_item_insert_ne _ _ _ _ _ E5 Hp) in Hd1. by left.
    + right. exists e'. rewrite E4 in Hop'. split; [by right|]. done.
Qed.

(** X10. Whatever is registered, the document that [GenerateOpenAPI]
    returns has the version ["3.0.0"], the service info of the registry,
    one server with the base URL of the registry, exactly the two
    security schemes, and a path entry for exactly the paths of the
    registered endpoints. *)
Theorem GenerateOpenAPI_envelope (fuel : nat) (registry : EndpointRegistry.t)
    (doc : OpenAPISpec.t) :
  GenerateOpenAPI fuel registry = Ret doc ->
  OpenAPISpec.OpenAPI doc = "3.0.0"
  /\ OpenAPISpec.Info doc = EndpointRegistry.info registry
  /\ OpenAPISpec.Servers doc
     = [ {| OpenAPIServer.URL := EndpointRegistry.baseURL registry;
            OpenAPIServer.Description := "" |} ]
  /\ OpenAPIComponents.SecuritySchemes (OpenAPISpec.Components doc)
     = <["Bearer" := Bearer_scheme]> (<["mTLS" := mTLS_scheme]> ∅)
  /\ dom (OpenAPISpec.Paths doc)
     = list_to_set (map EndpointConfig.Path (EndpointRegistry.endpoints registry)).
Proof.
  unfold GenerateOpenAPI. intros H.
  apply GenerateOpenAPI_loop_envelope in H as (-> & -> & -> & -> & ->).
  repeat (split; [done|]). cbn [GenerateOpenAPI_init OpenAPISpec.Paths].
  rewrite dom_empty_L. set_solver.
Qed.

(** X11. The last registration wins: when an endpoint with a recognized
    method is registered and no endpoint after it has the same path and
    the same method, the slot of its method under its path holds its
    operation, the one that [endpointToOperation] gives for it. *)
Theorem GenerateOpenAPI_last_registration_wins (fuel : nat)
    (registry : EndpointRegistry.t) (l1 l2 : list EndpointConfig.t)
    (e : EndpointConfig.t) (doc : OpenAPISpec.t) :
  EndpointRegistry.endpoints registry = l1 ++ e :: l2 ->
  recognized_method (EndpointConfig.Method e) = true ->
  (forall e', In e' l2 ->
     EndpointConfig.Path e' = EndpointConfig.Path e ->
     EndpointConfig.Method e' = EndpointConfig.Method e -> False) ->
  GenerateOpenAPI fuel registry = Ret doc ->
  exists op : Operation.t,
    endpointToOperation fuel e ∅ = Ret (op, ∅)
    /\ slot (EndpointConfig.Method e) (path_item doc (EndpointConfig.Path e))
       = Some op.
Proof.
  unfold GenerateOpenAPI. intros -> R Hl2 H. rewrite foldM_app in H.
  apply bind_Ret_inv in H as (d1 & H1 & H). cbn [foldM] in H.
  apply bind_Ret_inv in H as (d2 & H2 & H3).
  apply GenerateOpenAPI_loop_envelope in H1 as (_ & _ & _ & C & _).
  apply GenerateOpenAPI_endpoint_spec in H2 as (op & Hop & _ & _ & _ & _ & E5).
  rewrite C in Hop. exists op. split; [exact Hop|].
  rewrite (GenerateOpenAPI_loop_slot_other _ _ _ _ _ _ H3 Hl2).
  rewrite (path_item_insert_eq _ _ _ _ E5). by apply slot_assign_same.
Qed.

(** X12. No operation comes from nowhere: an operation in a slot of a
    path of the document is the operation of a registered endpoint with
    that path and that method. *)
Theorem GenerateOpenAPI_operations_are_registered (fuel : nat)
    (registry : EndpointRegistry.t) (doc : OpenAPISpec.t)
    (p m : string) (op : Operation.t) :
  GenerateOpenAPI fuel registry = Ret doc ->
  slot m (path_item doc p) = Some op ->
  exists e, In e (EndpointRegistry.endpoints registry)
    /\ EndpointConfig.Path e = p /\ EndpointConfig.Method e = m
    /\ endpointToOperation fuel e ∅ = Ret (op, ∅).
Proof.
  unfold GenerateOpenAPI. intros H Hop.
  destruct (GenerateOpenAPI_loop_slot_inv _ _ _ _ _ _ _ H Hop) as [H0|H0].
  - unfold path_item in H0. cbn [GenerateOpenAPI_init OpenAPISpec.Paths] in H0.
    rewrite lookup_empty, slot_zero in H0. discriminate.
  - exact H0.
Qed.


(** ** Operations *)

Lemma reflectToJSONSchema_schema_ok (fuel : nat) (v : any) (s : Schema) :
  reflectToJSONSchema fuel v = Ret s -> schema_ok s.
Proof.
  destruct v as [| |t]; simpl.
  - intros [= <-]. apply schema_ok_type_only. simpl; tauto.
  - intros [= <-]. apply schema_ok_type_only. simpl; tauto.
  - intros H. apply bind_Ret_inv in H as (t' & _ & H).
    by apply (typeToSchema_ok _ _ _ H).
Qed.

Lemma response_loop_dom (fuel : nat) (entries : list (Z * any)) :
  forall responses responses' : gmap string Response.t,
  foldM (endpointToOperation_response fuel) entries responses = Ret responses' ->
  dom responses'
  = dom responses ∪ list_to_set (map (fun entry => http.StatusText entry.1) entries).
Proof.
  induction entries as [|[code v] entries IH]; intros responses responses' H.
  - injection H as <-. set_solver.
  - cbn [foldM] in H. apply bind_Ret_inv in H as (r1 & H1 & H2).
    apply endpointToOperation_response_spec in H1 as (schema & -> & _).
    rewrite (IH _ _ H2), dom_insert_L. cbn [map fst]. set_solver.
Qed.

Lemma size_list_to_set_length (l : list string) :
  size (list_to_set l : gset string) <= length l.
Proof.
  induction l as [|x l IH]; [done|]. cbn [list_to_set length].
  destruct (decide (x ∈ (list_to_set l : gset string))) as [Hin|Hin].
  - replace ({[x]} ∪ list_to_set l : gset string) with (list_to_set l : gset string)
      by set_solver. lia.
  - rewrite size_union by set_solver. rewrite size_singleton. lia.
Qed.

(** X13. The operation of an endpoint: summary, description and tags
    are those of the endpoint and the operation id is never set; the
    security requirements are one single-scheme entry per declared
    scheme, in the order declared; the request body is absent exactly
    when the endpoint declares none, and otherwise it is required and
    has the one content type ["application/json"], whose schema is the
    reflected one and is well formed. A string given as request body is
    reflected like any other value. *)
Theorem endpointToOperation_operation (fuel : nat) (endpoint : EndpointConfig.t)
    (schemas schemas' : gmap string (gmap string JValue)) (op : Operation.t) :
  endpointToOperation fuel endpoint schemas = Ret (op, schemas') ->
  Operation.Summary op = EndpointConfig.Summary endpoint
  /\ Operation.Description op = EndpointConfig.Description endpoint
  /\ Operation.Tags op = EndpointConfig.Tags endpoint
  /\ Operation.OperationID op = ""
  /\ Operation.Security op
     = map (fun scheme : string => ({[ scheme := [] ]} : gmap string (list string)))
           (EndpointConfig.Security endpoint)
  /\ (Operation.RequestBody op = None <-> EndpointConfig.RequestBody endpoint = nil)
  /\ (forall body, Operation.RequestBody op = Some body ->
        RequestBody.Required body = true
        /\ exists schema : Schema,
             reflectToJSONSchema fuel (EndpointConfig.RequestBody endpoint) = Ret schema
             /\ schema_ok schema
             /\ RequestBody.Content body
                = {[ "application/json" :=
                       {| MediaType.Schema := schema; MediaType.Example_ := None |} ]}).
Proof.
  unfold endpointToOperation. intros H.
  apply bind_Ret_inv in H as (requestBody & Hb & H).
  apply bind_Ret_inv in H as (responses & _ & H). injection H as <- _. simpl.
  repeat (split; [done|]).
  split; [by destruct (EndpointConfig.Security endpoint)|].
  destruct (EndpointConfig.RequestBody endpoint) as [|desc|t] eqn:E.
  - injection Hb as <-. split; [done|]. intros body [=].
  - apply bind_Ret_inv in Hb as (schema & Hs & Hb). injection Hb as <-.
    split; [split; discriminate|]. intros body [= <-]. simpl.
    split; [done|]. exists schema. split; [done|]. split; [|done].
    by apply (reflectToJSONSchema_schema_ok _ _ _ Hs).
  - apply bind_Ret_inv in Hb as (schema & Hs & Hb). injection Hb as <-.
    split; [split; discriminate|]. intros body [= <-]. simpl.
    split; [done|]. exists schema. split; [done|]. split; [|done].
    by apply (reflectToJSONSchema_schema_ok _ _ _ Hs).
Qed.

(** X14. The responses of an operation are keyed by exactly the status
    phrases of the declared codes: there are never more responses than
    declared codes, and all codes without a phrase share the one key
    [""]. *)
Theorem endpointToOperation_response_keys (fuel : nat) (endpoint : EndpointConfig.t)
    (schemas schemas' : gmap string (gmap string JValue)) (op : Operation.t) :
  endpointToOperation fuel endpoint schemas = Ret (op, schemas') ->
  dom (Operation.Responses op)
  = list_to_set (map (fun entry => http.StatusText entry.1)
                     (EndpointConfig.Responses endpoint))
  /\ size (Operation.Responses op) <= length (EndpointConfig.Responses endpoint)
  /\ (forall code v, In (code, v) (EndpointConfig.Responses endpoint) ->
        http.StatusText code = "" -> is_Some (Operation.Responses op !! "")).
Proof.
  intros H. apply endpointToOperation_inv in H as [_ H].
  pose proof (response_loop_dom _ _ _ _ H) as Hdom.
  rewrite dom_empty_L, (left_id_L ∅ (∪)) in Hdom.
  split; [exact Hdom|]. split.
  - rewrite <- size_dom, Hdom.
    etrans; [apply size_list_to_set_length|]. by rewrite length_map.
  - intros code v Hin Hcode. apply elem_of_dom. rewrite Hdom.
    apply elem_of_list_to_set, list_elem_of_In, in_map_iff.
    exists (code, v). by split.
Qed.


(** * Properties of the API description *)

Lemma GenerateAPIDescription_response_spec (fuel : nat)
    (responses responses' : gmap string ResponseSchema.t) (code : Z) (v : any) :
  GenerateAPIDescription_response fuel responses (code, v) = Ret responses' ->
  exists schema : Schema,
    responses' = <[http.StatusText code := response_schema_of code v schema]> responses
    /\ (forall t, v = val t -> reflectToJSONSchema fuel v = Ret schema).
Proof.
  unfold GenerateAPIDescription_response, response_schema_of.
  destruct v as [|desc|t].
  - intros H. injection H as <-. exists ∅. split; [done|]. intros t; discriminate.
  - intros H. injection H as <-. exists ∅. split; [done|]. intros t; discriminate.
  - intros H. apply bind_Ret_inv in H as (resp & H1 & H2).
    apply bind_Ret_inv in H1 as (schema & H1 & H3).
    injection H2 as <-. injection H3 as <-. exists schema. split; [done|].
    intros t' _. exact H1.
Qed.

Lemma description_loop_other (fuel : nat) (entries : list (Z * any)) (k : string) :
  forall responses responses' : gmap string ResponseSchema.t,
  foldM (GenerateAPIDescription_response fuel) entries responses = Ret responses' ->
  (forall c v, In (c, v) entries -> http.StatusText c <> k) ->
  responses' !! k = responses !! k.
Proof.
  induction entries as [|[c v] entries IH]; intros r r' H Hk.
  - by injection H as <-.
  - cbn [foldM] in H. apply bind_Ret_inv in H as (r1 & H1 & H2).
    apply GenerateAPIDescription_response_spec in H1 as (schema & -> & _).
    rewrite (IH _ _ H2) by (intros c' v' Hin; apply (Hk c' v'); by right).
    apply lookup_insert_ne. apply (Hk c v). by left.
Qed.

Lemma description_loop_spec (fuel : nat) (entries : list (Z * any))
    (code : Z) (v : any) :
  forall responses responses' : gmap string ResponseSchema.t,
  foldM (GenerateAPIDescription_response fuel) entries responses = Ret responses' ->
  NoDup (map fst entries) ->
  In (code, v) entries ->
  (forall c' v', In (c', v') entries ->
     http.StatusText c' = http.StatusText code -> c' = code) ->
  exists schema : Schema,
    responses' !! http.StatusText code = Some (response_schema_of code v schema)
    /\ (forall t, v = val t -> reflectToJSONSchema fuel v = Ret schema).
Proof.
  induction entries as [|[c0 v0] entries IH]; intros r r' H Hnd Hin Huniq; [done|].
  cbn [foldM] in H. apply bind_Ret_inv in H as (r1 & H1 & H2).
  simpl in Hnd. apply NoDup_cons in Hnd as [Hnin Hnd].
  destruct Hin as [[= -> ->]|Hin].
  - apply GenerateAPIDescription_response_spec in H1 as (schema & -> & Hs).
    exists schema. split; [|done].
    rewrite (description_loop_other _ _ _ _ _ H2); [apply lookup_insert_eq|].
    intros c' v' Hin' Heq. apply Hnin.
    rewrite <- (Huniq c' v' (or_intror Hin') Heq).
    apply list_elem_of_In, in_map_iff. by exists (c', v').
  - apply (IH _ _ H2 Hnd Hin). intros c' v' Hin'. apply (Huniq c' v'). by right.
Qed.

Lemma description_loop_dom (fuel : nat) (entries : list (Z * any)) :
  forall responses responses' : gmap string ResponseSchema.t,
  foldM (GenerateAPIDescription_response fuel) entries responses = Ret responses' ->
  dom responses'
  = dom responses ∪ list_to_set (map (fun entry => http.StatusText entry.1) entries).
Proof.
  induction entries as [|[code v] entries IH]; intros responses responses' H.
  - injection H as <-. set_solver.
  - cbn [foldM] in H. apply bind_Ret_inv in H as (r1 & H1 & H2).
    apply GenerateAPIDescription_response_spec in H1 as (schema & -> & _).
    rewrite (IH _ _ H2), dom_insert_L. cbn [map fst]. set_solver.
Qed.

(** One turn of the endpoint loop appends one entry, which describes the
    endpoint and has the responses of the response loop. *)
Lemma GenerateAPIDescription_endpoint_spec (fuel : nat)
    (acc out : list APIEndpoint.t) (e : EndpointConfig.t) :
  GenerateAPIDescription_endpoint fuel acc e = Ret out ->
  exists a : APIEndpoint.t,
    out = acc ++ [a] /\ describes fuel e a
    /\ foldM (GenerateAPIDescription_response fuel) (EndpointConfig.Responses e) ∅
       = Ret (APIEndpoint.Responses a).
Proof.
  unfold GenerateAPIDescription_endpoint. intros H.
  apply bind_Ret_inv in H as (requestBody & Hb & H).
  apply bind_Ret_inv in H as (responses & Hr & H). injection H as <-.
  eexists. split; [reflexivity|]. split; [|exact Hr].
  unfold describes. cbn. repeat (split; [done|]). split.
  - destruct (EndpointConfig.RequestBody e) as [|desc|t].
    + by injection Hb as <-.
    + apply bind_Ret_inv in Hb as (schema & Hs & Hb). injection Hb as <-.
      by exists schema.
    + apply bind_Ret_inv in Hb as (schema & Hs & Hb). injection Hb as <-.
      by exists schema.
  - rewrite (description_loop_dom _ _ _ _ Hr), dom_empty_L. set_solver.
Qed.

Lemma GenerateAPIDescription_loop (fuel : nat) (l : list EndpointConfig.t) :
  forall acc out : list APIEndpoint.t,
  foldM (GenerateAPIDescription_endpoint fuel) l acc = Ret out ->
  exists entries : list APIEndpoint.t,
    out = acc ++ entries
    /\ Forall2 (fun e a =>
         describes fuel e a
         /\ foldM (GenerateAPIDescription_response fuel)
                  (EndpointConfig.Responses e) ∅
            = Ret (APIEndpoint.Responses a)) l entries.
Proof.
  induction l as [|e l IH]; intros acc out H.
  - injection H as <-. exists []. by rewrite app_nil_r.
  - cbn [foldM] in H. apply bind_Ret_inv in H as (acc1 & H1 & H2).
    apply GenerateAPIDescription_endpoint_spec in H1 as (a & -> & Hd & Hr).
    destruct (IH _ _ H2) as (entries & -> & Hall).
    exists (a :: entries). rewrite <- app_assoc. split; [done|].
    by constructor.
Qed.

(** X15. The API description lists every registered endpoint, one entry
    each, in the order of registration, endpoints with an unrecognized
    method and endpoints that share a path and a method included; each
    entry describes its endpoint. Service name, version and base URL are
    those of the registry. *)
Theorem GenerateAPIDescription_describes_every_endpoint (fuel : nat)
    (registry : EndpointRegistry.t) (desc : APIDescription.t) :
  GenerateAPIDescription fuel registry = Ret desc ->
  APIDescription.ServiceName desc = OpenAPIInfo.Title (EndpointRegistry.info registry)
  /\ APIDescription.Version desc = OpenAPIInfo.Version (EndpointRegistry.info registry)
  /\ APIDescription.BaseURL desc = EndpointRegistry.baseURL registry
  /\ Forall2 (describes fuel) (EndpointRegistry.endpoints registry)
             (APIDescription.Endpoints desc).
Proof.
  unfold GenerateAPIDescription. intros H.
  apply bind_Ret_inv in H as (endpoints & Hloop & H). injection H as <-. cbn.
  repeat (split; [done|]).
  apply GenerateAPIDescription_loop in Hloop as (entries & -> & Hall).
  rewrite app_nil_l. eapply Forall2_impl; [exact Hall|]. by intros e a [Hd _].
Qed.

(** X16. In the API description, the entry of the i-th registered
    endpoint holds, for a declared response whose status phrase no other
    declared code of the endpoint shares, under that phrase: for a
    string value, that string as the description and the content type
    ["text/plain"]; for [nil], the phrase (["Response"] when the code has
    none) and ["application/json"]; for any other value, the same with
    the reflected schema. *)
Theorem GenerateAPIDescription_response_by_phrase (fuel : nat)
    (registry : EndpointRegistry.t) (desc : APIDescription.t)
    (i : nat) (e : EndpointConfig.t) (code : Z) (v : any) :
  GenerateAPIDescription fuel registry = Ret desc ->
  EndpointRegistry.endpoints registry !! i = Some e ->
  NoDup (map fst (EndpointConfig.Responses e)) ->
  In (code, v) (EndpointConfig.Responses e) ->
  (forall c' v', In (c', v') (EndpointConfig.Responses e) ->
     http.StatusText c' = http.StatusText code -> c' = code) ->
  exists (a : APIEndpoint.t) (schema : Schema),
    APIDescription.Endpoints desc !! i = Some a
    /\ APIEndpoint.Responses a !! http.StatusText code
       = Some (response_schema_of code v schema)
    /\ (forall t, v = val t -> reflectToJSONSchema fuel v = Ret schema).
Proof.
  unfold GenerateAPIDescription. intros H Hi Hnd Hin Huniq.
  apply bind_Ret_inv in H as (endpoints & Hloop & H). injection H as <-. cbn.
  apply GenerateAPIDescription_loop in Hloop as (entries & -> & Hall).
  rewrite app_nil_l.
  destruct (Forall2_lookup_l _ _ _ _ _ Hall Hi) as (a & Ha & _ & Hr).
  destruct (description_loop_spec _ _ _ _ _ _ Hr Hnd Hin Huniq) as (schema & Hs & Hv).
  by exists a, schema.
Qed.


(** * The generators as a whole *)

Lemma foldM_no_panic {A B : Type} (f : A -> B -> Res A) (l : list B) :
  (forall a x, f a x <> Panic) -> forall a, foldM f l a <> Panic.
Proof.
  intros Hf. induction l as [|x l IH]; intros a; [discriminate|].
  cbn [foldM]. pose proof (Hf a x) as Hx.
  destruct (f a x) as [a1| |]; cbn [mbind Res_bind]; [apply IH|done|discriminate].
Qed.

Lemma endpointToOperation_no_panic (fuel : nat) (e : EndpointConfig.t)
    (schemas : gmap string (gmap string JValue)) :
  endpointToOperation fuel e schemas <> Panic.
Proof.
  unfold endpointToOperation.
  assert (forall v, reflectToJSONSchema fuel v <> Panic) as Hr
    by (intros v; apply reflectToJSONSchema_no_panic).
  assert (foldM (endpointToOperation_response fuel) (EndpointConfig.Responses e) ∅
          <> Panic) as Hl.
  { apply foldM_no_panic. intros r [code v]. unfold endpointToOperation_response.
    destruct v as [|desc|t]; try discriminate.
    pose proof (Hr (val t)) as Hv.
    by destruct (reflectToJSONSchema fuel (val t)). }
  destruct (foldM _ _ _) as [r| |]; [|done|].
  - destruct (EndpointConfig.RequestBody e) as [|desc|t]; try discriminate.
    pose proof (Hr (val t)) as Hv.
    by destruct (reflectToJSONSchema fuel (val t)).
  - destruct (EndpointConfig.RequestBody e) as [|desc|t]; try discriminate.
    pose proof (Hr (val t)) as Hv.
    by destruct (reflectToJSONSchema fuel (val t)).
Qed.

Lemma GenerateAPIDescription_endpoint_no_panic (fuel : nat)
    (acc : list APIEndpoint.t) (e : EndpointConfig.t) :
  GenerateAPIDescription_endpoint fuel acc e <> Panic.
Proof.
  unfold GenerateAPIDescription_endpoint.
  assert (forall v, reflectToJSONSchema fuel v <> Panic) as Hr
    by (intros v; apply reflectToJSONSchema_no_panic).
  assert (foldM (GenerateAPIDescription_response fuel) (EndpointConfig.Responses e) ∅
          <> Panic) as Hl.
  { apply foldM_no_panic. intros r [code v]. unfold GenerateAPIDescription_response.
    destruct v as [|desc|t]; try discriminate.
    pose proof (Hr (val t)) as Hv.
    by destruct (reflectToJSONSchema fuel (val t)). }
  destruct (foldM _ _ _) as [r| |]; [|done|].
  - destruct (EndpointConfig.RequestBody e) as [|desc|t]; try discriminate.
    pose proof (Hr (val t)) as Hv.
    by destruct (reflectToJSONSchema fuel (val t)).
  - destruct (EndpointConfig.RequestBody e) as [|desc|t]; try discriminate.
    pose proof (Hr (val t)) as Hv.
    by destruct (reflectToJSONSchema fuel (val t)).
Qed.

(** X17. Neither generator panics, whatever is registered: the one
    type assertion on their way, [schema["type"].(string)] in
    [parseOpenAPITag], is only ever made on a schema that [typeToSchema]
    has just built, and such a schema has a string under ["type"]. *)
Theorem generators_never_panic (fuel : nat) (registry : EndpointRegistry.t) :
  GenerateOpenAPI fuel registry <> Panic
  /\ GenerateAPIDescription fuel registry <> Panic.
Proof.
  split.
  - unfold GenerateOpenAPI. apply foldM_no_panic. intros d e.
    unfold GenerateOpenAPI_endpoint.
    pose proof (endpointToOperation_no_panic fuel e
      (OpenAPIComponents.Schemas (OpenAPISpec.Components d))) as He.
    by destruct (endpointToOperation _ _ _) as [[op s]| |].
  - unfold GenerateAPIDescription.
    pose proof (foldM_no_panic (GenerateAPIDescription_endpoint fuel)
      (EndpointRegistry.endpoints registry)
      (GenerateAPIDescription_endpoint_no_panic fuel) []) as Hl.
    by destruct (foldM _ _ _).
Qed.

(** ** Recursion budgets *)

Lemma foldM_fuel {A B : Type} (f : nat -> A -> B -> Res A) (l : list B) :
  (forall n m a x a', f n a x = Ret a' -> n <= m -> f m a x = Ret a') ->
  (forall x, In x l -> exists n, forall a, exists a', f n a x = Ret a') ->
  exists N, forall a, exists a', foldM (f N) l a = Ret a'.
Proof.
  intros Hmono. induction l as [|x l IH]; intros Hl.
  - exists 0. intros a. by exists a.
  - destruct (Hl x (or_introl eq_refl)) as [n Hn].
    destruct IH as [N HN]; [intros y Hy; apply Hl; by right|].
    exists (max n N). intros a. destruct (Hn a) as [a1 Ha1].
    destruct (HN a1) as [a' Ha']. exists a'. cbn [foldM].
    rewrite (Hmono n (max n N) _ _ _ Ha1) by lia. cbn [mbind Res_bind].
    apply (foldM_mono (f N)); [|done].
    intros b y b' Hb. apply (Hmono N); [done|lia].
Qed.

Lemma reflectToJSONSchema_returns (v : any) :
  finite_walk v -> exists fuel s, reflectToJSONSchema fuel v = Ret s.
Proof.
  destruct v as [| |t]; simpl.
  - intros _. exists 0. by eexists.
  - intros _. exists 0. by eexists.
  - intros (n & t' & Hd & Hacc).
    destruct (typeToSchema_total _ Hacc) as (k & s & Hs).
    exists (max n k), s. rewrite (deref_le n _ _ _ Hd) by lia.
    cbn [mbind Res_bind]. apply (typeToSchema_le k); [done|lia].
Qed.

Lemma endpointToOperation_response_le (n m : nat)
    (responses responses' : gmap string Response.t) (entry : Z * any) :
  endpointToOperation_response n responses entry = Ret responses' -> n <= m ->
  endpointToOperation_response m responses entry = Ret responses'.
Proof.
  destruct entry as [code [|desc|t]]; unfold endpointToOperation_response;
    try done. intros H Hle.
  apply bind_Ret_inv in H as (resp & H1 & H2).
  apply bind_Ret_inv in H1 as (schema & H1 & H3).
  rewrite (reflectToJSONSchema_le _ m _ _ H1 Hle). cbn [mbind Res_bind].
  injection H3 as <-. exact H2.
Qed.

Lemma GenerateAPIDescription_response_le (n m : nat)
    (responses responses' : gmap string ResponseSchema.t) (entry : Z * any) :
  GenerateAPIDescription_response n responses entry = Ret responses' -> n <= m ->
  GenerateAPIDescription_response m responses entry = Ret responses'.
Proof.
  destruct entry as [code [|desc|t]]; unfold GenerateAPIDescription_response;
    try done. intros H Hle.
  apply bind_Ret_inv in H as (resp & H1 & H2).
  apply bind_Ret_inv in H1 as (schema & H1 & H3).
  rewrite (reflectToJSONSchema_le _ m _ _ H1 Hle). cbn [mbind Res_bind].
  injection H3 as <-. exact H2.
Qed.

Lemma endpointToOperation_le (n m : nat) (e : EndpointConfig.t)
    (schemas : gmap string (gmap string JValue))
    (r : Operation.t * gmap string (gmap string JValue)) :
  endpointToOperation n e schemas = Ret r -> n <= m ->
  endpointToOperation m e schemas = Ret r.
Proof.
  unfold endpointToOperation. intros H Hle.
  apply bind_Ret_inv in H as (rb & Hb & H).
  apply bind_Ret_inv in H as (responses & Hr & H).
  rewrite (foldM_mono _ (endpointToOperation_response m) _
             (fun a x a' Hx => endpointToOperation_response_le n m a a' x Hx Hle)
             _ _ Hr).
  destruct (EndpointConfig.RequestBody e) as [|desc|t].
  - rewrite Hb. exact H.
  - apply bind_Ret_inv in Hb as (schema & Hs & Hb).
    rewrite (reflectToJSONSchema_le _ m _ _ Hs Hle). cbn [mbind Res_bind].
    injection Hb as <-. exact H.
  - apply bind_Ret_inv in Hb as (schema & Hs & Hb).
    rewrite (reflectToJSONSchema_le _ m _ _ Hs Hle). cbn [mbind Res_bind].
    injection Hb as <-. exact H.
Qed.

Lemma GenerateOpenAPI_endpoint_le (n m : nat) (d d1 : OpenAPISpec.t)
    (e : EndpointConfig.t) :
  GenerateOpenAPI_endpoint n d e = Ret d1 -> n <= m ->
  GenerateOpenAPI_endpoint m d e = Ret d1.
Proof.
  unfold GenerateOpenAPI_endpoint. intros H Hle.
  apply bind_Ret_inv in H as (r & Hop & H).
  rewrite (endpointToOperation_le _ m _ _ _ Hop Hle). exact H.
Qed.

Lemma GenerateAPIDescription_endpoint_le (n m : nat)
    (acc out : list APIEndpoint.t) (e : EndpointConfig.t) :
  GenerateAPIDescription_endpoint n acc e = Ret out -> n <= m ->
  GenerateAPIDescription_endpoint m acc e = Ret out.
Proof.
  unfold GenerateAPIDescription_endpoint. intros H Hle.
  apply bind_Ret_inv in H as (rb & Hb & H).
  apply bind_Ret_inv in H as (responses & Hr & H).
  rewrite (foldM_mono _ (GenerateAPIDescription_response m) _
             (fun a x a' Hx => GenerateAPIDescription_response_le n m a a' x Hx Hle)
             _ _ Hr).
  destruct (EndpointConfig.RequestBody e) as [|desc|t].
  - rewrite Hb. exact H.
  - apply bind_Ret_inv in Hb as (schema & Hs & Hb).
    rewrite (reflectToJSONSchema_le _ m _ _ Hs Hle). cbn [mbind Res_bind].
    injection Hb as <-. exact H.
  - apply bind_Ret_inv in Hb as (schema & Hs & Hb).
    rewrite (reflectToJSONSchema_le _ m _ _ Hs Hle). cbn [mbind Res_bind].
    injection Hb as <-. exact H.
Qed.

Lemma GenerateOpenAPI_le (n m : nat) (registry : EndpointRegistry.t)
    (doc : OpenAPISpec.t) :
  GenerateOpenAPI n registry = Ret doc -> n <= m ->
  GenerateOpenAPI m registry = Ret doc.
Proof.
  unfold GenerateOpenAPI. intros H Hle. apply (foldM_mono (GenerateOpenAPI_endpoint n)); [|done].
  intros d e d1 Hd. by apply (GenerateOpenAPI_endpoint_le n).
Qed.

Lemma GenerateAPIDescription_le (n m : nat) (registry : EndpointRegistry.t)
    (desc : APIDescription.t) :
  GenerateAPIDescription n registry = Ret desc -> n <= m ->
  GenerateAPIDescription m registry = Ret desc.
Proof.
  unfold GenerateAPIDescription. intros H Hle.
  apply bind_Ret_inv in H as (endpoints & Hl & H).
  rewrite (foldM_mono _ (GenerateAPIDescription_endpoint m) _
             (fun a x a' Hx => GenerateAPIDescription_endpoint_le n m a a' x Hx Hle)
             _ _ Hl).
  exact H.
Qed.


Lemma endpointToOperation_returns (e : EndpointConfig.t) :
  endpoint_finite e ->
  exists n, forall schemas, exists op,
    endpointToOperation n e schemas = Ret (op, schemas).
Proof.
  intros [Hb Hr].
  destruct (reflectToJSONSchema_returns _ Hb) as (n1 & s1 & Hs1).
  destruct (foldM_fuel endpointToOperation_response (EndpointConfig.Responses e))
    as [N2 HN2].
  { intros n m a x a'. apply endpointToOperation_response_le. }
  { intros [code v] Hin.
    destruct (reflectToJSONSchema_returns _ (Hr code v Hin)) as (n & s & Hs).
    exists n. intros a. unfold endpointToOperation_response.
    destruct v as [|desc|t]; [by eexists..|].
    rewrite Hs. cbn [mbind Res_bind]. by eexists. }
  exists (max n1 N2). intros schemas. destruct (HN2 ∅) as [r Hr'].
  assert (reflectToJSONSchema (max n1 N2) (EndpointConfig.RequestBody e) = Ret s1)
    as Hs by (apply (reflectToJSONSchema_le n1); [done|lia]).
  assert (foldM (endpointToOperation_response (max n1 N2))
                (EndpointConfig.Responses e) ∅ = Ret r) as Hl.
  { apply (foldM_mono (endpointToOperation_response N2)); [|done].
    intros a x a' Hx. apply (endpointToOperation_response_le N2); [done|lia]. }
  unfold endpointToOperation. rewrite Hl.
  destruct (EndpointConfig.RequestBody e) as [|desc|t].
  - by eexists.
  - rewrite Hs. by eexists.
  - rewrite Hs. by eexists.
Qed.

Lemma GenerateAPIDescription_endpoint_returns (e : EndpointConfig.t) :
  endpoint_finite e ->
  exists n, forall acc, exists out,
    GenerateAPIDescription_endpoint n acc e = Ret out.
Proof.
  intros [Hb Hr].
  destruct (reflectToJSONSchema_returns _ Hb) as (n1 & s1 & Hs1).
  destruct (foldM_fuel GenerateAPIDescription_response (EndpointConfig.Responses e))
    as [N2 HN2].
  { intros n m a x a'. apply GenerateAPIDescription_response_le. }
  { intros [code v] Hin.
    destruct (reflectToJSONSchema_returns _ (Hr code v Hin)) as (n & s & Hs).
    exists n. intros a. unfold GenerateAPIDescription_response.
    destruct v as [|desc|t]; [by eexists..|].
    rewrite Hs. cbn [mbind Res_bind]. by eexists. }
  exists (max n1 N2). intros acc. destruct (HN2 ∅) as [r Hr'].
  assert (reflectToJSONSchema (max n1 N2) (EndpointConfig.RequestBody e) = Ret s1)
    as Hs by (apply (reflectToJSONSchema_le n1); [done|lia]).
  assert (foldM (GenerateAPIDescription_response (max n1 N2))
                (EndpointConfig.Responses e) ∅ = Ret r) as Hl.
  { apply (foldM_mono (GenerateAPIDescription_response N2)); [|done].
    intros a x a' Hx. apply (GenerateAPIDescription_response_le N2); [done|lia]. }
  unfold GenerateAPIDescription_endpoint. rewrite Hl.
  destruct (EndpointConfig.RequestBody e) as [|desc|t].
  - by eexists.
  - rewrite Hs. by eexists.
  - rewrite Hs. by eexists.
Qed.

(** X18. When every value that the registered endpoints declare (request
    bodies and response values) has a finite type walk, both generators
    return: there is a recursion budget from which on each of them
    returns, and returns the same document for every larger budget. *)
Theorem generators_return_on_finite_walks (registry : EndpointRegistry.t) :
  (forall e, In e (EndpointRegistry.endpoints registry) -> endpoint_finite e) ->
  exists (fuel : nat) (doc : OpenAPISpec.t) (desc : APIDescription.t),
    forall fuel', fuel <= fuel' ->
      GenerateOpenAPI fuel' registry = Ret doc
      /\ GenerateAPIDescription fuel' registry = Ret desc.
Proof.
  intros Hfin.
  destruct (foldM_fuel GenerateOpenAPI_endpoint (EndpointRegistry.endpoints registry))
    as [N1 HN1].
  { intros n m d e d1. apply GenerateOpenAPI_endpoint_le. }
  { intros e He. destruct (endpointToOperation_returns e (Hfin e He)) as [n Hn].
    exists n. intros d. unfold GenerateOpenAPI_endpoint.
    destruct (Hn (OpenAPIComponents.Schemas (OpenAPISpec.Components d))) as [op ->].
    by eexists. }
  destruct (foldM_fuel GenerateAPIDescription_endpoint
              (EndpointRegistry.endpoints registry)) as [N2 HN2].
  { intros n m acc e out. apply GenerateAPIDescription_endpoint_le. }
  { intros e He. by apply GenerateAPIDescription_endpoint_returns, Hfin. }
  destruct (HN1 (GenerateOpenAPI_init registry)) as [doc Hdoc].
  destruct (HN2 []) as [endpoints Hdesc].
  exists (max N1 N2), doc. eexists. intros fuel' Hle. split.
  - apply (GenerateOpenAPI_le N1); [exact Hdoc|lia].
  - apply (GenerateAPIDescription_le N2); [|lia].
    unfold GenerateAPIDescription. rewrite Hdesc. reflexivity.
Qed.

(** * The registry *)

(** X19. After any sequence of [SetServiceInfo] and [RegisterEndpoint]
    calls, [GetEndpoints] returns the endpoints it returned before
    followed by the registered ones, in the order of the calls and with
    repetitions kept; the service info and the base URL are those of the
    last [SetServiceInfo] call, or the earlier ones when there is none.
    Registering never touches the service info, and setting it never
    touches the endpoints. *)
Theorem registry_after_calls (cs : list RegistryCall) :
  forall registry : EndpointRegistry.t,
  GetEndpoints (calls cs registry) = GetEndpoints registry ++ registered cs
  /\ (EndpointRegistry.info (calls cs registry),
      EndpointRegistry.baseURL (calls cs registry))
     = last_service_info cs (EndpointRegistry.info registry,
                             EndpointRegistry.baseURL registry).
Proof.
  unfold GetEndpoints, calls, last_service_info.
  induction cs as [|c cs IH]; intros registry.
  - cbn. by rewrite app_nil_r.
  - cbn [fold_left]. destruct (IH (call registry c)) as [IH1 IH2].
    rewrite IH1, IH2. destruct c as [title version description baseURL|cfg]; cbn.
    + done.
    + by rewrite <- app_assoc.
Qed.


(** X20. Pointers are followed at the top only. Inside the walk a
    pointer type is a leaf: the element of a slice, of an array or of a
    map that is a pointer is documented as the bare object schema,
    whatever it points to, and [typeToSchema] returns on every pointer
    type, also on one that points to itself. *)
Theorem pointer_inside_the_walk_is_a_leaf (fuel : nat) (t : reflect.TypeId) :
  reflect.kind (rtypes (reflect.Elem (rtypes t))) = reflect.Ptr ->
  (reflect.kind (rtypes t) = reflect.Slice \/ reflect.kind (rtypes t) = reflect.Array ->
   typeToSchema (S (S fuel)) t
   = Ret (<["items" := VMap (type_only "object")]> (type_only "array")))
  /\ (reflect.kind (rtypes t) = reflect.Map ->
      typeToSchema (S (S fuel)) t
      = Ret (<["additionalProperties" := VMap (type_only "object")]>
               (type_only "object")))
  /\ Acc walk (reflect.Elem (rtypes t)).
Proof.
  intros K. split; [|split].
  - intros [K'|K']; rewrite typeToSchema_S, K';
      unfold arrayToSchema, arrayToSchema_with;
      by rewrite (typeToSchema_Ptr _ _ K).
  - intros K'. rewrite typeToSchema_S, K'.
    unfold mapToSchema, mapToSchema_with. by rewrite (typeToSchema_Ptr _ _ K).
  - constructor. intros c Hc. unfold walk, walk_children in Hc.
    rewrite K in Hc. destruct Hc.
Qed.

End Reflector.

Local Close Scope Z_scope.
Local Open Scope list_scope.

(** * The example programs *)

Ltac by_computation := vm_compute; reflexivity.

(** [parseValue] on the types it distinguishes. *)
Lemma parseValue_boolean (s : string) :
  parseValue s "boolean" = VBool (String.eqb s "true").
Proof. reflexivity. Qed.

Lemma parseValue_other (s typ : string) :
  typ <> "integer" -> typ <> "number" -> typ <> "boolean" ->
  parseValue s typ = VString s.
Proof.
  intros H1 H2 H3. unfold parseValue.
  apply String.eqb_neq in H1, H2, H3. by rewrite H1, H2, H3.
Qed.

(** C1, at the failing input. For the types ["integer"] and ["number"],
    [parseValue] returns the zero value whatever the literal: the field
    [Count int `json:"count" openapi:"default=50"`] gets the default 0,
    not 50. *)
Theorem parseValue_integer_is_zero_placeholder :
  (forall s, parseValue s "integer" = VInt 0)
  /\ (forall s, parseValue s "number" = VFloat PrimFloat.zero)
  /\ typeToSchema example_types convertFloat_short 2 5
     = Ret (struct_schema
              {[ "count" := VMap (<["default" := VInt 0]> (type_only "integer")) ]}
              []).
Proof. split; [done|]. split; [done|]. by_computation. Qed.

(** C3, at the failing input. The field [Name *string `json:"name"`] gets
    the placeholder [{"type": "object"}], not [{"type": "string"}]: only
    [reflectToJSONSchema] follows pointers, [structToSchema] hands the
    field type to [typeToSchema] as it is. *)
Theorem pointer_field_schema_is_object :
  typeToSchema example_types convertFloat_short 2 6
  = Ret (struct_schema {[ "name" := VMap (type_only "object") ]} [])
  /\ reflectToJSONSchema example_types convertFloat_short 2 (val 2)
     = Ret (type_only "string").
Proof. split; by_computation. Qed.

(** The walk from [Node] never ends. *)
Lemma typeToSchema_Node_diverges (fuel : nat) :
  typeToSchema example_types convertFloat_short fuel 3 = OutOfFuel
  /\ typeToSchema example_types convertFloat_short fuel 4 = OutOfFuel.
Proof.
  induction fuel as [|fuel [IH3 IH4]]; [done|]. split.
  - rewrite typeToSchema_S. change (reflect.kind (example_types 3)) with reflect.Struct.
    unfold structToSchema, structToSchema_with.
    change (reflect.Fields (example_types 3))
      with [exported "Children" 4 [("json", "children")]].
    cbn [foldM]. unfold structToSchema_field at 1.
    change (reflect.Type_ (exported "Children" 4 [("json", "children")])) with 4.
    simpl. by rewrite IH4.
  - rewrite typeToSchema_S. change (reflect.kind (example_types 4)) with reflect.Slice.
    unfold arrayToSchema, arrayToSchema_with.
    change (reflect.Elem (example_types 4)) with 3. by rewrite IH3.
Qed.

(** C2, as stated, fails: for the self-referential record
    [type Node struct { Children []Node }] no recursion budget makes the
    reflector return. *)
Lemma reflect_Node_never_returns :
  ~ exists fuel s,
      reflectToJSONSchema example_types convertFloat_short fuel (val 3) = Ret s.
Proof.
  intros (fuel & s & H). destruct fuel as [|fuel]; [discriminate|].
  change (reflectToJSONSchema example_types convertFloat_short (S fuel) (val 3))
    with (typeToSchema example_types convertFloat_short (S fuel) 3) in H.
  by rewrite (proj1 (typeToSchema_Node_diverges (S fuel))) in H.
Qed.

Lemma example_basic_walk_ends (t : reflect.TypeId) :
  walk_children example_types t = [] -> Acc (walk example_types) t.
Proof. intros H. constructor. intros c Hc. unfold walk in Hc. by rewrite H in Hc. Qed.

Lemma example_User_walk_ends : Acc (walk example_types) 12.
Proof.
  constructor. intros c Hc. vm_compute in Hc.
  destruct Hc as [<-|[<-|[<-|[]]]]; by apply example_basic_walk_ends.
Qed.

Lemma reflectToJSONSchema_total_on_finite_walk_witness :
  finite_walk example_types (val 12)
  /\ exists fuel s, forall fuel', fuel <= fuel' ->
       reflectToJSONSchema example_types convertFloat_short fuel' (val 12) = Ret s.
Proof.
  assert (H : finite_walk example_types (val 12)).
  { exists 1, 12. split; [reflexivity|exact example_User_walk_ends]. }
  split; [exact H|].
  exact (proj1 (reflectToJSONSchema_total_on_finite_walk
                  example_types convertFloat_short (val 12) H)).
Defined.








Lemma empty_registry_documents_witness :
  exists (doc : OpenAPISpec.t) (desc : APIDescription.t),
    GenerateOpenAPI example_types convertFloat_short 0 (registry_of []) = Ret doc
    /\ GenerateAPIDescription example_types convertFloat_short 0 (registry_of [])
       = Ret desc
    /\ OpenAPISpec.Paths doc = ∅
    /\ size (OpenAPIComponents.SecuritySchemes (OpenAPISpec.Components doc)) = 2
    /\ APIDescription.Endpoints desc = [].
Proof.
  destruct (empty_registry_documents example_types convertFloat_short 0
              (registry_of []) eq_refl)
    as (doc & desc & H1 & H2 & _ & H4 & (H5 & _) & H6).
  exists doc, desc. repeat (split; [assumption|]). assumption.
Defined.

Lemma GenerateOpenAPI_schemas_empty_witness :
  match GenerateOpenAPI example_types convertFloat_short 3
          (registry_of [endpoint "POST" "/x" (val 12)
                          [(201%Z, val 12); (400%Z, str "Invalid request")]]) with
  | Ret doc => OpenAPIComponents.Schemas (OpenAPISpec.Components doc) = ∅
  | _ => False
  end.
Proof.
  destruct (GenerateOpenAPI _ _ _ _) as [doc| |] eqn:E;
    [|vm_compute in E; discriminate..].
  exact (proj1 (GenerateOpenAPI_schemas_empty example_types convertFloat_short 3
                  _ doc E)).
Defined.

(** The scanner on a few inputs. *)
Example Sscanf_d_prefix : fmt.Sscanf_d "1.5" = Some 1%Z /\ fmt.Sscanf_d "12abc" = Some 12%Z.
Proof. split; reflexivity. Qed.

Example Sscanf_d_errors :
  fmt.Sscanf_d "abc" = None /\ fmt.Sscanf_d ".5" = None /\ fmt.Sscanf_d "" = None
  /\ fmt.Sscanf_d "1_000" = None /\ fmt.Sscanf_d "9223372036854775808" = None.
Proof. repeat split. Qed.

Example parseNumber_examples :
  parseNumber convertFloat_short "42" = VInt 42
  /\ parseNumber convertFloat_short "-7" = VInt (-7)
  /\ parseNumber convertFloat_short ".5" = VFloat 0.5
  /\ parseNumber convertFloat_short "abc" = VString "abc".
Proof. repeat split. Qed.

(** * The further properties on the examples *)

Lemma reflectToJSONSchema_follows_pointers_witness :
  reflectToJSONSchema nested_types convertFloat_short 3 (val 2)
  = typeToSchema nested_types convertFloat_short 3 0
  /\ reflect.kind (nested_types 0) <> reflect.Ptr.
Proof.
  apply (reflectToJSONSchema_follows_pointers nested_types convertFloat_short
           3 3 2 0); [reflexivity|lia].
Defined.

Lemma typeToSchema_returns_iff_walk_ends_witness : Acc (walk nested_types) 7.
Proof.
  apply (proj1 (typeToSchema_returns_iff_walk_ends nested_types convertFloat_short 7)).
  destruct (typeToSchema nested_types convertFloat_short 3 7) as [s| |] eqn:E;
    [|vm_compute in E; discriminate..].
  exists 3, s. exact E.
Defined.


Lemma parseOpenAPITag_assigns_only_annotation_keys_witness :
  match parseOpenAPITag convertFloat_short "min=1, required ,format=int32"
          (type_only "integer") [] "count" with
  | Ret (schema', required') =>
      schema' !! "type" = Some (VString "integer")
      /\ exists n, required' = [] ++ replicate n "count"
  | _ => False
  end.
Proof.
  destruct (parseOpenAPITag _ _ _ _ _) as [[schema' required']| |] eqn:E;
    [|vm_compute in E; discriminate..].
  destruct (parseOpenAPITag_assigns_only_annotation_keys convertFloat_short
              _ _ _ _ _ _ E) as (H1 & _ & H3).
  split; [|exact H3]. rewrite H1; [reflexivity|].
  cbn. intros [H|[H|[H|[H|[H|[H|[H|[H|[H|[H|[]]]]]]]]]]]; discriminate.
Defined.



Lemma doc_tag_overrides_description_witness :
  match typeToSchema nested_types convertFloat_short 3 7 with
  | Ret s =>
      exists (props : gmap string JValue) (fieldSchema : Schema),
        s !! "properties" = Some (VMap props)
        /\ props !! "note" = Some (VMap fieldSchema)
        /\ fieldSchema !! "description" = Some (VString "from doc")
  | _ => False
  end.
Proof.
  destruct (typeToSchema _ _ _ _) as [s| |] eqn:E;
    [|vm_compute in E; discriminate..].
  apply (doc_tag_overrides_description nested_types convertFloat_short 2 7 s
           [ exported "Inner" 6 [("json", "inner,omitempty")] ]
           [ exported "Tags" 4 [("json", "tags")];
             exported "Meta" 5 [("json", "meta")];
             exported "Free" 0 [("json", ",omitempty")] ]
           (exported "Note" 0 [("json", "note");
                               ("openapi", "description=from the tag");
                               ("doc", "from doc")])).
  - reflexivity.
  - reflexivity.
  - reflexivity.
  - intros g Hin _. destruct Hin as [<-|[<-|[<-|[]]]]; vm_compute; discriminate.
  - vm_compute. discriminate.
  - exact E.
Defined.

Lemma typeToSchema_schema_ok_witness :
  exists s, typeToSchema nested_types convertFloat_short 3 7 = Ret s /\ schema_ok s.
Proof.
  destruct (typeToSchema nested_types convertFloat_short 3 7) as [s| |] eqn:E;
    [|vm_compute in E; discriminate..].
  exists s. split; [reflexivity|].
  exact (typeToSchema_schema_ok nested_types convertFloat_short 3 7 s E).
Defined.

Lemma pointer_inside_the_walk_is_a_leaf_witness :
  typeToSchema nested_types convertFloat_short 2 8
  = Ret (<["items" := VMap (type_only "object")]> (type_only "array"))
  /\ typeToSchema nested_types convertFloat_short 2 9
     = Ret (<["additionalProperties" := VMap (type_only "object")]>
              (type_only "object")).
Proof.
  split.
  - exact (proj1 (pointer_inside_the_walk_is_a_leaf nested_types convertFloat_short
                    0 8 eq_refl) (or_introl eq_refl)).
  - exact (proj1 (proj2 (pointer_inside_the_walk_is_a_leaf nested_types
                           convertFloat_short 0 9 eq_refl)) eq_refl).
Defined.

Lemma GenerateOpenAPI_envelope_witness :
  match GenerateOpenAPI example_types convertFloat_short 3
          (registry_of [endpoint "GET" "/x" nil [(200%Z, val 12)];
                        endpoint "HEAD" "/y" nil [];
                        endpoint "POST" "/x" (val 12) []]) with
  | Ret doc =>
      OpenAPISpec.OpenAPI doc = "3.0.0"
      /\ dom (OpenAPISpec.Paths doc) = list_to_set ["/x"; "/y"; "/x"]
  | _ => False
  end.
Proof.
  destruct (GenerateOpenAPI _ _ _ _) as [doc| |] eqn:E;
    [|vm_compute in E; discriminate..].
  destruct (GenerateOpenAPI_envelope example_types convertFloat_short 3 _ doc E)
    as (H1 & _ & _ & _ & H5).
  split; [exact H1|exact H5].
Defined.

Lemma GenerateOpenAPI_last_registration_wins_witness :
  match GenerateOpenAPI example_types convertFloat_short 3
          (registry_of [endpoint "GET" "/x" nil [(200%Z, val 12)];
                        endpoint "POST" "/x" (val 12) [];
                        endpoint "GET" "/x" nil [(404%Z, str "no such thing")]]) with
  | Ret doc =>
      exists op : Operation.t,
        endpointToOperation example_types convertFloat_short 3
          (endpoint "GET" "/x" nil [(404%Z, str "no such thing")]) ∅ = Ret (op, ∅)
        /\ slot "GET" (path_item doc "/x") = Some op
  | _ => False
  end.
Proof.
  destruct (GenerateOpenAPI _ _ _ _) as [doc| |] eqn:E;
    [|vm_compute in E; discriminate..].
  apply (GenerateOpenAPI_last_registration_wins example_types convertFloat_short 3
           (registry_of [endpoint "GET" "/x" nil [(200%Z, val 12)];
                         endpoint "POST" "/x" (val 12) [];
                         endpoint "GET" "/x" nil [(404%Z, str "no such thing")]])
           [endpoint "GET" "/x" nil [(200%Z, val 12)];
            endpoint "POST" "/x" (val 12) []]
           []
           (endpoint "GET" "/x" nil [(404%Z, str "no such thing")]) doc).
  - reflexivity.
  - reflexivity.
  - intros e' [].
  - exact E.
Defined.

Lemma GenerateOpenAPI_operations_are_registered_witness :
  match GenerateOpenAPI example_types convertFloat_short 3
          (registry_of [endpoint "GET" "/x" nil [(200%Z, val 12)];
                        endpoint "POST" "/x" (val 12) []]) with
  | Ret doc =>
      match slot "POST" (path_item doc "/x") with
      | Some op =>
          exists e,
            In e [endpoint "GET" "/x" nil [(200%Z, val 12)];
                  endpoint "POST" "/x" (val 12) []]
            /\ EndpointConfig.Path e = "/x" /\ EndpointConfig.Method e = "POST"
            /\ endpointToOperation example_types convertFloat_short 3 e ∅
               = Ret (op, ∅)
      | None => False
      end
  | _ => False
  end.
Proof.
  destruct (GenerateOpenAPI _ _ _ _) as [doc| |] eqn:E;
    [|vm_compute in E; discriminate..].
  destruct (slot "POST" (path_item doc "/x")) as [op|] eqn:S.
  - exact (GenerateOpenAPI_operations_are_registered example_types
             convertFloat_short 3 _ doc "/x" "POST" op E S).
  - vm_compute in E. injection E as <-. vm_compute in S. discriminate.
Defined.

Lemma endpointToOperation_operation_witness :
  match endpointToOperation example_types convertFloat_short 3
          {| EndpointConfig.Method := "POST"; EndpointConfig.Path := "/x";
             EndpointConfig.Summary := "Create"; EndpointConfig.Description := "";
             EndpointConfig.Tags := ["admin"];
             EndpointConfig.RequestBody := val 12;
             EndpointConfig.Responses := [(201%Z, val 12)];
             EndpointConfig.Security := ["mTLS"; "Bearer"] |} ∅ with
  | Ret (op, _) =>
      Operation.Summary op = "Create"
      /\ Operation.Security op
         = [ ({[ "mTLS" := [] ]} : gmap string (list string));
             {[ "Bearer" := [] ]} ]
      /\ Operation.RequestBody op <> None
  | _ => False
  end.
Proof.
  destruct (endpointToOperation _ _ _ _ _) as [[op schemas]| |] eqn:E;
    [|vm_compute in E; discriminate..].
  destruct (endpointToOperation_operation example_types convertFloat_short 3
              _ _ _ _ E) as (H1 & _ & _ & _ & H5 & H6 & _).
  split; [exact H1|]. split; [exact H5|].
  intros H. apply H6 in H. discriminate.
Defined.

Lemma endpointToOperation_response_keys_witness :
  match endpointToOperation example_types convertFloat_short 3
          (endpoint "GET" "/x" nil
             [(200%Z, val 12); (299%Z, nil); (298%Z, str "also fine")]) ∅ with
  | Ret (op, _) =>
      size (Operation.Responses op) <= 3
      /\ is_Some (Operation.Responses op !! "")
  | _ => False
  end.
Proof.
  destruct (endpointToOperation _ _ _ _ _) as [[op schemas]| |] eqn:E;
    [|vm_compute in E; discriminate..].
  destruct (endpointToOperation_response_keys example_types convertFloat_short 3
              _ _ _ _ E) as (_ & H2 & H3).
  split; [exact H2|].
  apply (H3 299%Z nil); [right; left; reflexivity|reflexivity].
Defined.

Lemma GenerateAPIDescription_describes_every_endpoint_witness :
  match GenerateAPIDescription example_types convertFloat_short 3
          (registry_of [endpoint "GET" "/x" nil [(200%Z, val 12)];
                        endpoint "HEAD" "/y" nil [];
                        endpoint "GET" "/x" (val 12) []]) with
  | Ret desc =>
      APIDescription.ServiceName desc = "my-service"
      /\ Forall2 (describes example_types convertFloat_short 3)
           [endpoint "GET" "/x" nil [(200%Z, val 12)];
            endpoint "HEAD" "/y" nil [];
            endpoint "GET" "/x" (val 12) []]
           (APIDescription.Endpoints desc)
  | _ => False
  end.
Proof.
  destruct (GenerateAPIDescription _ _ _ _) as [desc| |] eqn:E;
    [|vm_compute in E; discriminate..].
  destruct (GenerateAPIDescription_describes_every_endpoint example_types
              convertFloat_short 3 _ desc E) as (H1 & _ & _ & H4).
  split; [exact H1|exact H4].
Defined.

Lemma GenerateAPIDescription_response_by_phrase_witness :
  match GenerateAPIDescription example_types convertFloat_short 3
          (registry_of [endpoint "POST" "/x" nil
                          [(201%Z, val 12); (400%Z, str "Invalid request")]]) with
  | Ret desc =>
      exists (a : APIEndpoint.t),
        APIDescription.Endpoints desc !! 0 = Some a
        /\ APIEndpoint.Responses a !! "Bad Request"
           = Some {| ResponseSchema.Description := "Invalid request";
                     ResponseSchema.ContentType := "text/plain";
                     ResponseSchema.Schema := ∅;
                     ResponseSchema.Example_ := None |}
  | _ => False
  end.
Proof.
  destruct (GenerateAPIDescription _ _ _ _) as [desc| |] eqn:E;
    [|vm_compute in E; discriminate..].
  destruct (GenerateAPIDescription_response_by_phrase example_types
              convertFloat_short 3 _ desc 0
              (endpoint "POST" "/x" nil
                 [(201%Z, val 12); (400%Z, str "Invalid request")])
              400%Z (str "Invalid request") E eq_refl)
    as (a & schema & H1 & H2 & _).
  - apply (bool_decide_unpack _). vm_compute. exact I.
  - right. left. reflexivity.
  - intros c' v' [[= <- <-]|[[= <- <-]|[]]]; [vm_compute; discriminate|reflexivity].
  - exists a. split; [exact H1|exact H2].
Defined.

Lemma generators_return_on_finite_walks_witness :
  exists (fuel : nat) (doc : OpenAPISpec.t) (desc : APIDescription.t),
    forall fuel', fuel <= fuel' ->
      GenerateOpenAPI example_types convertFloat_short fuel'
        (registry_of [endpoint "POST" "/x" (val 12) [(201%Z, val 12)]]) = Ret doc
      /\ GenerateAPIDescription example_types convertFloat_short fuel'
           (registry_of [endpoint "POST" "/x" (val 12) [(201%Z, val 12)]])
         = Ret desc.
Proof.
  apply (generators_return_on_finite_walks example_types convertFloat_short).
  assert (H : finite_walk example_types (val 12)).
  { exists 1, 12. split; [reflexivity|exact example_User_walk_ends]. }
  intros e [<-|[]]. split; [exact H|].
  intros code v [[= <- <-]|[]]. exact H.
Defined.
